(** * Pull-request workflow of [lib/cmds/pull-request.js]

    A shallow embedding of the [PullRequest] command object: the branch-name
    codec, the complexity score and sort, the submit reconciler, the listing
    pipeline and the [run] dispatcher, followed by the properties proved
    about them.

    Conventions of the embedding.
    - JavaScript values that flow through the free-form [options] bag are
      kept dynamically typed ([JsValue]); [options] itself and the request
      payloads are finite maps from property names to values.
    - Records returned by the hosting API (pull requests, repositories,
      statuses) are typed records.
    - Effects are threaded through a state monad whose state carries the
      [options] object shared by all methods, the state of the outside world
      (remote service and working tree) and the chronological trace of the
      calls made to the collaborators.  A computation ends normally, by
      [process.exit], or by an uncaught exception.
    - The collaborators complete a request before they return: the callback
      handed to them runs at the call.  Node-style callbacks [(err, data)]
      become returned pairs. *)

From Stdlib Require Import ZArith String Ascii DecimalString DecimalZ DecimalPos Lia.
From Stdlib Require Import Sorting.Sorted Sorting.Permutation.
From stdpp Require Import base option list gmap strings.

Open Scope Z_scope.

(** ** JavaScript values and the primitives the file relies on *)

Module Js.

(** The primitive values that occur in [options] and in payloads.  Numbers
    are the integers the program handles (pull-request numbers, counters),
    printed in plain decimal. *)
Inductive JsValue : Type :=
| JsUndefined
| JsNull
| JsBool (b : bool)
| JsNumber (n : Z)
| JsString (s : string).

#[export] Instance JsValue_eq_dec : EqDecision JsValue.
Proof. solve_decision. Defined.

#[export] Instance JsValue_inhabited : Inhabited JsValue := populate JsUndefined.

(** [ToBoolean] *)
Definition truthy (v : JsValue) : bool :=
  match v with
  | JsUndefined | JsNull => false
  | JsBool b => b
  | JsNumber n => negb (n =? 0)
  | JsString s => negb (String.eqb s "")
  end.

(** [Number::toString] on an integer *)
Definition Number_toString (n : Z) : string :=
  NilZero.string_of_int (Z.to_int n).

(** [ToString], as applied by [+] with a string operand *)
Definition ToString (v : JsValue) : string :=
  match v with
  | JsUndefined => "undefined"
  | JsNull => "null"
  | JsBool true => "true"
  | JsBool false => "false"
  | JsNumber n => Number_toString n
  | JsString s => s
  end.

(** [a || b] and [a && b] on values *)
Definition logical_or (a b : JsValue) : JsValue := if truthy a then a else b.
Definition logical_and (a b : JsValue) : JsValue := if truthy a then b else a.

(** [a === b] *)
Definition strict_eq (a b : JsValue) : bool := bool_decide (a = b).

(** A property read [o.k]: absent properties read as [undefined]. *)
Definition prop (o : gmap string JsValue) (k : string) : JsValue :=
  default JsUndefined (o !! k).
Arguments prop : simpl never.

Definition of_option_string (o : option string) : JsValue :=
  match o with
  | Some s => JsString s
  | None => JsNull
  end.

(** [String.prototype.replace(pattern, replacement)] with a string pattern:
    the first occurrence only.  The replacement is inserted literally (the
    file only ever passes the empty string). *)
Definition String_replace (s pattern replacement : string) : string :=
  match String.index 0 pattern s with
  | Some i =>
      let after := (i + String.length pattern)%nat in
      substring 0 i s +:+ replacement +:+
      substring after (String.length s - after) s
  | None => s
  end.

(** lodash [_.startsWith(string, target)] on two strings *)
Definition startsWith (s target : string) : bool := String.prefix target s.

(** Reading a decimal numeral back, the caller's side of the codec. *)
Definition parseDecimal (s : string) : option Z :=
  Z.of_int <$> NilZero.int_of_string s.

(** [Array.prototype.sort(compareFn)]: a stable sort (ECMAScript 2019);
    [compareFn a b] is negative when [a] goes first, positive when [b]
    does.  With a comparator that is a consistent ordering, stability
    determines the result, so insertion is as good as any algorithm. *)
Section Sort.
Context {A : Type} (compareFn : A -> A -> Z).

Fixpoint sort_insert (x : A) (sorted : list A) : list A :=
  match sorted with
  | [] => [x]
  | y :: ys =>
      if compareFn x y <=? 0 then x :: y :: ys else y :: sort_insert x ys
  end.

Fixpoint Array_sort (l : list A) : list A :=
  match l with
  | [] => []
  | x :: xs => sort_insert x (Array_sort xs)
  end.
End Sort.

(** [Object.keys] order of an object built by assignments: the keys that
    are canonical array indices first, ascending, then the other keys in
    the order of their first assignment. *)
Definition array_index (k : string) : option Z :=
  match parseDecimal k with
  | Some n =>
      if String.eqb (Number_toString n) k && (0 <=? n) && (n <? 2 ^ 32 - 1)
      then Some n else None
  | None => None
  end.

Definition index_compare (a b : string) : Z :=
  match array_index a, array_index b with
  | Some x, Some y => x - y
  | _, _ => 0
  end.

Definition Object_keys_order (inserted : list string) : list string :=
  Array_sort index_compare
    (filter (fun k => is_Some (array_index k)) inserted)
  ++ filter (fun k => array_index k = None) inserted.

End Js.
Export Js.

(** ** Data model *)

(** [config], read once from [base.getConfig()]. *)
Record Config := {
  pull_branch_name_prefix : string;
  default_branch : string;
  default_remote : string;
  github_host : string;
  default_pr_forwarder : string;
  default_pr_reviewer : string;
}.

(** The constants of the constructor. *)
Definition DIRECTION_DESC : string := "desc".
Definition DIRECTION_ASC : string := "asc".
Definition SORT_CREATED : string := "created".
Definition SORT_COMPLEXITY : string := "complexity".
Definition STATE_CLOSED : string := "closed".
Definition STATE_OPEN : string := "open".

Inductive FetchType :=
| FETCH_TYPE_CHECKOUT
| FETCH_TYPE_MERGE
| FETCH_TYPE_REBASE
| FETCH_TYPE_SILENT.

#[export] Instance FetchType_eq_dec : EqDecision FetchType.
Proof. solve_decision. Defined.

(** ** BranchIdentifierCodec *)

(** [getBranchNameFromPullNumber_]: the function falls off its end, returning
    [undefined], when [number] is falsy. *)
Definition getBranchNameFromPullNumber_ (config : Config) (number : JsValue) : JsValue :=
  if truthy number
  then JsString (pull_branch_name_prefix config +:+ ToString number)
  else JsUndefined.

(** [getPullRequestNumberFromBranch_].  [currentBranch] is a string or
    [undefined] in every call; for a truthy value of another type lodash
    coerces it for the test, and the method call [currentBranch.replace]
    then raises a [TypeError], rendered here by [None]. *)
Definition getPullRequestNumberFromBranch_ (currentBranch : JsValue) (prefix : string)
  : option JsValue :=
  if truthy currentBranch && startsWith (ToString currentBranch) prefix
  then match currentBranch with
       | JsString s => Some (JsString (String_replace s prefix ""))
       | _ => None
       end
  else Some JsUndefined.

(** ** ComplexityScorer *)

Record Metrics := {
  additions : Z;
  changedFiles : Z;
  comments : Z;
  deletions : Z;
  reviewComments : Z;
}.

Definition calculateComplexity_ (metrics : Metrics) : Z :=
  let weightAddition := 2 in
  let weightChangedFile := 2 in
  let weightComment := 2 in
  let weightDeletion := 2 in
  let weightReviewComment := 1 in
  additions metrics * weightAddition +
  changedFiles metrics * weightChangedFile +
  comments metrics * weightComment +
  deletions metrics * weightDeletion +
  reviewComments metrics * weightReviewComment.

(** ** Records of the hosting API *)

Record User := { login : string }.

Record Repo := { ssh_url : string }.

(** One side ([base] or [head]) of a pull request. *)
Record Branch := {
  ref : string;
  sha : string;
  branch_user : User;
  branch_repo : Repo;
}.

(** A pull request as the API returns it.  [complexity] and [combinedStatus]
    are the two properties the listing adds to the object; they are absent
    ([None]) until assigned. *)
Record Pull := {
  pull_number : Z;
  pull_title : string;
  pull_body : option string;
  pull_state : string;
  pull_base : Branch;
  pull_head : Branch;
  pull_user : User;
  created_at : string;
  html_url : string;
  mergeable_state : option string;
  pull_additions : Z;
  changed_files : Z;
  pull_comments : Z;
  pull_deletions : Z;
  review_comments : Z;
  complexity : option Z;
  combinedStatus : option string;
}.

Definition set_complexity (c : Z) (pull : Pull) : Pull :=
  {| pull_number := pull_number pull; pull_title := pull_title pull;
     pull_body := pull_body pull;
     pull_state := pull_state pull; pull_base := pull_base pull;
     pull_head := pull_head pull; pull_user := pull_user pull;
     created_at := created_at pull; html_url := html_url pull;
     mergeable_state := mergeable_state pull;
     pull_additions := pull_additions pull; changed_files := changed_files pull;
     pull_comments := pull_comments pull; pull_deletions := pull_deletions pull;
     review_comments := review_comments pull;
     complexity := Some c; combinedStatus := combinedStatus pull |}.

Definition set_combinedStatus (s : string) (pull : Pull) : Pull :=
  {| pull_number := pull_number pull; pull_title := pull_title pull;
     pull_body := pull_body pull;
     pull_state := pull_state pull; pull_base := pull_base pull;
     pull_head := pull_head pull; pull_user := pull_user pull;
     created_at := created_at pull; html_url := html_url pull;
     mergeable_state := mergeable_state pull;
     pull_additions := pull_additions pull; changed_files := changed_files pull;
     pull_comments := pull_comments pull; pull_deletions := pull_deletions pull;
     review_comments := review_comments pull;
     complexity := complexity pull; combinedStatus := Some s |}.

Record Repository := { repository_owner : User; repository_name : string }.

Record CombinedStatus := { status_state : string }.

Record IssueComment := { comment_html_url : string }.

(** The [err] argument of a callback. *)
Record Error := { code : Z; message : string }.

(** What the API hands to its callback: an error or the data. *)
Inductive Result (A : Type) : Type :=
| Ok (data : A)
| Failed (err : Error).
Arguments Ok {A} data.
Arguments Failed {A} err.

(** The arguments [(err, data)] a method passes to its own callback; either
    may be left [undefined]. *)
Definition Callback (A : Type) : Type := option Error * option A.

(** An object literal sent as a request. *)
Abbreviation Payload := (gmap string JsValue).

(** How a computation ends: normally, by [process.exit(status)], or by an
    uncaught exception. *)
Inductive Outcome (A : Type) : Type :=
| Done (a : A)
| Exit (status : Z)
| Throw (exn : string).
Arguments Done {A} a.
Arguments Exit {A} status.
Arguments Throw {A} exn.

(** ** Collaborators and the trace of their calls *)

Inductive GitCmd : Type :=
| GitFetch (repoUrl headBranch : string) (pullBranch : JsValue)
| GitCheckout (branch : JsValue)
| GitMerge (branch : JsValue)
| GitRebase (branch : JsValue)
| GitPush (remote : string) (branch : JsValue)
| GitDeleteBranch (branch : JsValue)
| GitGetLastCommitSHA
| GitCountUserAdjacentCommits
| GitGetLastCommitMessage (branch : JsValue).

Inductive Event : Type :=
| EvApi (method : string) (payload : Payload)
| EvGit (cmd : GitCmd)
| EvOpenUrl (url : string)
| EvLog (line : string)
| EvWarn (line : string)
| EvError (line : string)
| EvConsoleError (err : Error).

(** The hosting API ([base.github]), the version-control commands ([git]),
    and the pure helpers of [logger], as the file uses them.  [World] is the
    state of everything outside the process. *)
Class Collaborators := {
  World : Type;
  config : Config;
  pullRequests_get : Payload -> World -> Result Pull * World;
  pullRequests_getAll : Payload -> World -> Result (list Pull) * World;
  pullRequests_create : Payload -> World -> Result Pull * World;
  pullRequests_createFromIssue : Payload -> World -> Result Pull * World;
  pullRequests_update : Payload -> World -> Result Pull * World;
  statuses_getCombined : Payload -> World -> Result CombinedStatus * World;
  repos_getAll : Payload -> World -> Result (list Repository) * World;
  repos_getFromOrg : Payload -> World -> Result (list Repository) * World;
  git_run : GitCmd -> World -> World;
  git_lastCommitSHA : World -> string;
  git_userAdjacentCommits : World -> Z;
  git_lastCommitMessage : JsValue -> World -> string;
  colors_green : string -> string;
  colors_red : string -> string;
  colors_magenta : string -> string;
  colors_blue : string -> string;
  colors_yellow : string -> string;
  logger_getDuration : string -> string;
  logger_applyReplacements : string -> string;
  (** [JSON.parse(err.message).errors[0].message]; [None] when it throws *)
  first_error_message : string -> option string;
}.

(** ** The state monad of one invocation *)

Section Monad.
Context `{Collaborators}.

Record State := {
  options : gmap string JsValue;
  world : World;
  events : list Event;
}.

Definition M (A : Type) : Type := State -> Outcome A * State.

Definition ret {A} (a : A) : M A := fun st => (Done a, st).

Definition bind {A B} (m : M A) (k : A -> M B) : M B :=
  fun st =>
    match m st with
    | (Done a, st') => k a st'
    | (Exit status, st') => (Exit status, st')
    | (Throw exn, st') => (Throw exn, st')
    end.

Definition exit {A} (status : Z) : M A := fun st => (Exit status, st).
Definition throw {A} (exn : string) : M A := fun st => (Throw exn, st).

(** [try { m } catch (ignore) { handler }]: an exit is not an exception. *)
Definition try_catch {A} (m : M A) (handler : M A) : M A :=
  fun st =>
    match m st with
    | (Throw _, st') => handler st'
    | r => r
    end.

Definition emit (e : Event) : M unit :=
  fun st => (Done tt, {| options := options st; world := world st;
                           events := events st ++ [e] |}).

(** A call that changes the world and returns a value. *)
Definition perform {A} (f : World -> A * World) : M A :=
  fun st => (Done (f (world st)).1,
             {| options := options st; world := (f (world st)).2;
                events := events st |}).

(** [options.k] and [options.k = v] *)
Definition opt (k : string) : M JsValue :=
  fun st => (Done (prop (options st) k), st).

Definition set_opt (k : string) (v : JsValue) : M unit :=
  fun st => (Done tt, {| options := <[k := v]> (options st);
                           world := world st; events := events st |}).

Definition when (b : bool) (m : M unit) : M unit :=
  if b then m else ret tt.

(** [l.forEach(f)] *)
Fixpoint forEach {A} (l : list A) (f : A -> M unit) : M unit :=
  match l with
  | [] => ret tt
  | x :: xs => bind (f x) (fun _ => forEach xs f)
  end.
End Monad.

Declare Scope js_scope.
Delimit Scope js_scope with js.
Notation "'let*' x := m 'in' k" := (bind m (fun x => k))
  (at level 10, x pattern, m at level 100, k at level 200) : js_scope.
Notation "m >> k" := (bind m (fun _ => k))
  (at level 90, right associativity) : js_scope.
Open Scope js_scope.

(** ** Primitive calls *)

Section Primitives.
Context `{Collaborators}.

Definition get_options : M (gmap string JsValue) :=
  fun st => (Done (options st), st).

(** An object literal. *)
Definition object (fields : list (string * JsValue)) : Payload :=
  list_to_map fields.
#[global] Arguments object : simpl never.

(** A request to the hosting API: it is recorded, then answered. *)
Definition request {A} (method : string)
    (api : Payload -> World -> Result A * World) (payload : Payload)
  : M (Result A) :=
  emit (EvApi method payload) >> perform (api payload).

(** A version-control command. *)
Definition git (cmd : GitCmd) : M unit :=
  emit (EvGit cmd) >> perform (fun w => (tt, git_run cmd w)).

Definition git_getLastCommitSHA : M string :=
  emit (EvGit GitGetLastCommitSHA) >>
  perform (fun w => (git_lastCommitSHA w, git_run GitGetLastCommitSHA w)).

Definition git_countUserAdjacentCommits : M Z :=
  emit (EvGit GitCountUserAdjacentCommits) >>
  perform (fun w => (git_userAdjacentCommits w,
                     git_run GitCountUserAdjacentCommits w)).

Definition git_getLastCommitMessage (branch : JsValue) : M string :=
  emit (EvGit (GitGetLastCommitMessage branch)) >>
  perform (fun w => (git_lastCommitMessage branch w,
                     git_run (GitGetLastCommitMessage branch) w)).

(** Modelled from the spec: [logger.log] and [logger.warn] of the module
    [lib/logger.js], which is not among the sources; a warning is a logged
    line and nothing more. *)
Definition logger_log (line : string) : M unit := emit (EvLog line).
Definition logger_warn (line : string) : M unit := emit (EvWarn line).

(** Modelled from the spec: [logger.error] of the module [lib/logger.js],
    which is not among the sources; the spec calls the errors it reports
    fatal: the message is written and the process ends there. *)
Definition logger_error (line : string) : M unit :=
  emit (EvError line) >> exit 1.

Definition console_error (err : Error) : M unit := emit (EvConsoleError err).

Definition openUrl (url : string) : M unit := emit (EvOpenUrl url).

Definition newline : string := String (ascii_of_nat 10) "".
End Primitives.

(** The extension points: the pre and post hooks of a named action and the
    comment operation of the issue command, all of which share the state of
    the invocation. *)
Class Extensions `{Collaborators} := {
  hooks_before : string -> M unit;
  hooks_after : string -> M unit;
  issue_comment : M (Callback IssueComment);
}.

(** Modelled from the spec: [hooks.invoke] of the module [lib/hooks.js],
    which is not among the sources; the action runs between the pre hooks and
    the post hooks, and the post hooks run when the action calls the
    continuation it is given. *)
Definition hooks_invoke `{Extensions} (path : string) (action : M unit -> M unit)
  : M unit :=
  hooks_before path >> action (hooks_after path).

(** ** The methods of [PullRequest] *)

(** The comparator handed to [data.sort]; a comparison with an absent
    [complexity] is false. *)
Definition complexity_gt (a b : option Z) : bool :=
  match a, b with
  | Some x, Some y => y <? x
  | _, _ => false
  end.

Definition compareComplexity (a b : Pull) : Z :=
  if complexity_gt (complexity a) (complexity b) then -1
  else if complexity_gt (complexity b) (complexity a) then 1
  else 0.

Definition sortPullsByComplexity_ (options : gmap string JsValue) (data : list Pull)
  : list Pull :=
  let data := Array_sort compareComplexity data in
  if strict_eq (prop options "direction") (JsString DIRECTION_ASC)
  then rev data
  else data.

Definition filterPullsSentByMe_ (options : gmap string JsValue) (pulls : list Pull)
  : list Pull :=
  filter (fun pull => strict_eq (prop options "loggedUser")
                        (JsString (login (pull_user pull))) = true) pulls.

(** One entry of [json.branches]. *)
Record BranchGroup := {
  group_name : string;
  group_pulls : list Pull;
  group_total : nat;
}.

(** [branches[branch] = branches[branch] || []; branches[branch].push(pull)]
    on the object [branches], kept with its keys in order of creation.
    (A base branch named like a property of [Object.prototype] is left out
    of the model.) *)
Fixpoint push_to_branch (branch : string) (pull : Pull)
    (branches : list (string * list Pull)) : list (string * list Pull) :=
  match branches with
  | [] => [(branch, [pull])]
  | (name, pulls) :: rest =>
      if String.eqb name branch then (name, pulls ++ [pull]) :: rest
      else (name, pulls) :: push_to_branch branch pull rest
  end.

Definition branch_pulls (branches : list (string * list Pull)) (name : string)
  : list Pull :=
  match List.find (fun entry => String.eqb entry.1 name) branches with
  | Some entry => entry.2
  | None => []
  end.

Definition getPullsTemplateJson_ (options : gmap string JsValue) (pulls : list Pull)
  : list BranchGroup :=
  let branches :=
    fold_left
      (fun branches pull =>
         let branch := ref (pull_base pull) in
         if negb (truthy (prop options "branch"))
            || strict_eq (prop options "branch") (JsString branch)
         then push_to_branch branch pull branches
         else branches)
      pulls [] in
  map (fun branch =>
         {| group_name := branch;
            group_pulls := branch_pulls branches branch;
            group_total := length (branch_pulls branches branch) |})
      (Object_keys_order (map fst branches)).

(** The revision named by [opt_type] in [git[opt_type]]; ['silent'] names no
    command. *)
Definition git_method (opt_type : FetchType) : option (JsValue -> GitCmd) :=
  match opt_type with
  | FETCH_TYPE_CHECKOUT => Some GitCheckout
  | FETCH_TYPE_MERGE => Some GitMerge
  | FETCH_TYPE_REBASE => Some GitRebase
  | FETCH_TYPE_SILENT => None
  end.

Section Methods.
Context `{Collaborators}.

(** The constructor, after [this.options = options]. *)
Definition PullRequest : M unit :=
  let* repo := opt "repo" in
  let* all := opt "all" in
  when (negb (truthy repo) && negb (truthy all))
    (logger_error
       "You must specify a Git repository with a GitHub remote to run this command").

Definition browser (user repo number : JsValue) : M unit :=
  if truthy number
  then openUrl (github_host config +:+ ToString user +:+ "/" +:+ ToString repo
                +:+ "/pull/" +:+ ToString number)
  else openUrl (github_host config +:+ ToString user +:+ "/" +:+ ToString repo
                +:+ "/pulls").

Definition getPullRequest_ : M (Result Pull) :=
  let* number := opt "number" in
  let* repo := opt "repo" in
  let* user := opt "user" in
  request "pullRequests.get" pullRequests_get
    (object [("number", number); ("repo", repo); ("user", user)]).

(** [async.series] over one operation per pull: each sets [options.number],
    fetches the detail record and scores it; the first error ends the
    series, the results gathered so far going to the callback. *)
Fixpoint addComplexityParamToPulls_ (pulls : list Pull)
  : M (option Error * list Pull) :=
  match pulls with
  | [] => ret (None, [])
  | pull :: rest =>
      set_opt "number" (JsNumber (pull_number pull)) >>
      let* r := getPullRequest_ in
      match r with
      | Failed err => ret (Some err, [pull])
      | Ok pull2 =>
          let metrics :=
            {| additions := pull_additions pull2;
               changedFiles := changed_files pull2;
               comments := pull_comments pull2;
               deletions := pull_deletions pull2;
               reviewComments := review_comments pull2 |} in
          let pull := set_complexity (calculateComplexity_ metrics) pull in
          let* (err, results) := addComplexityParamToPulls_ rest in
          ret (err, pull :: results)
      end
  end.

Definition updatePullRequest_ (title : string) (opt_body : option string)
    (state : string) : M (Result Pull) :=
  let opt_body :=
    if truthy (of_option_string opt_body)
    then JsString (logger_applyReplacements (ToString (of_option_string opt_body)))
    else of_option_string opt_body in
  let* number := opt "number" in
  let* repo := opt "repo" in
  let* user := opt "user" in
  request "pullRequests.update" pullRequests_update
    (object [("body", opt_body); ("number", number); ("repo", repo);
             ("state", JsString state); ("title", JsString title);
             ("user", user)]).

Definition close : M (Callback Pull) :=
  let* r := getPullRequest_ in
  match r with
  | Failed err => ret (Some err, None)
  | Ok pull =>
      let* r2 := updatePullRequest_ (pull_title pull) (pull_body pull) STATE_CLOSED in
      match r2 with
      | Failed err => ret (Some err, Some pull)
      | Ok _ =>
          let* pullBranch := opt "pullBranch" in
          let* currentBranch := opt "currentBranch" in
          when (strict_eq pullBranch currentBranch)
            (git (GitCheckout (JsString (ref (pull_base pull))))) >>
          when (truthy pullBranch) (git (GitDeleteBranch pullBranch)) >>
          ret (None, Some pull)
      end
  end.

(** The test of the reconciler on one open pull request. *)
Definition integrity_match (options : gmap string JsValue) (user : JsValue)
    (data : Pull) : bool :=
  strict_eq (JsString (ref (pull_base data))) (prop options "branch")
  && strict_eq (JsString (ref (pull_head data))) (prop options "currentBranch")
  && String.eqb (sha (pull_base data)) (sha (pull_head data))
  && strict_eq (JsString (login (branch_user (pull_base data)))) user
  && strict_eq (JsString (login (branch_user (pull_head data)))) (prop options "user").

(** The [pulls.forEach] of the reconciler: every pull that passes the test
    is assigned to [pull] and clears [originalError]; the [return] in the
    callback ends one iteration, not the loop. *)
Definition integrity_scan (options : gmap string JsValue) (user : JsValue)
    (originalError : Error) (pulls : list Pull) : Callback Pull :=
  fold_left
    (fun (found : Callback Pull) data =>
       if integrity_match options user data then (None, Some data) else found)
    pulls (Some originalError, None).

Definition checkPullRequestIntegrity_ (originalError : Error) (user : JsValue)
  : M (Callback Pull) :=
  let* repo := opt "repo" in
  let payload :=
    object [("user", user); ("repo", repo); ("state", JsString STATE_OPEN)] in
  let* r := request "pullRequests.getAll" pullRequests_getAll payload in
  let* options := get_options in
  match r with
  | Ok pulls => ret (integrity_scan options user originalError pulls)
  | Failed _ => ret (Some originalError, None)
  end.

Definition fetch (opt_type : FetchType) : M (Callback Pull) :=
  let* r := getPullRequest_ in
  match r with
  | Failed err => ret (Some err, None)
  | Ok pull =>
      let headBranch := ref (pull_head pull) in
      let repoUrl := ssh_url (branch_repo (pull_head pull)) in
      let* pullBranch := opt "pullBranch" in
      git (GitFetch repoUrl headBranch pullBranch) >>
      when (negb (bool_decide (opt_type = FETCH_TYPE_SILENT)))
        (match git_method opt_type with
         | Some method => git (method pullBranch)
         | None => throw "TypeError: git[opt_type] is not a function"
         end) >>
      ret (None, Some pull)
  end.
End Methods.

Section Listing.
Context `{Collaborators}.

Definition printPullInfo_ (pull : Pull) : M unit :=
  let* options := get_options in
  let status :=
    match combinedStatus pull with
    | Some "success" => colors_green " ✓"
    | Some "failure" => colors_red " ✗"
    | _ => ""
    end in
  let headline :=
    colors_green ("#" +:+ Number_toString (pull_number pull)) +:+ " " +:+
    pull_title pull +:+ " " +:+
    colors_magenta ("@" +:+ login (pull_user pull)) +:+ " (" +:+
    logger_getDuration (created_at pull) +:+ ")" +:+ status in
  let headline :=
    if truthy (prop options "link")
    then headline +:+ " " +:+ colors_blue (html_url pull)
    else headline in
  logger_log headline >>
  when (truthy (prop options "detailed") && negb (truthy (prop options "link")))
    (logger_log (colors_blue (html_url pull))) >>
  match mergeable_state pull with
  | Some "clean" => logger_log ("Mergeable (" +:+ "clean" +:+ ")")
  | Some state => logger_warn ("Not mergeable (" +:+ state +:+ ")")
  | None => ret tt
  end >>
  when ((truthy (prop options "info") || truthy (prop options "detailed"))
        && truthy (of_option_string (pull_body pull)))
    (logger_log (ToString (of_option_string (pull_body pull)) +:+ newline)).

Definition get (user repo number : JsValue) : M unit :=
  let* r := request "pullRequests.get" pullRequests_get
              (object [("repo", repo); ("user", user); ("number", number)]) in
  match r with
  | Failed _ =>
      logger_warn ("Can't get pull request " +:+ ToString user +:+ "/" +:+
                   ToString repo +:+ "/" +:+ ToString number)
  | Ok pull => printPullInfo_ pull
  end.

(** The third operation of [list]: one status request per pull, in order.
    On a failed request [data] is [undefined] and reading [data.state]
    raises. *)
Fixpoint addCombinedStatus (user repo : JsValue) (pulls : list Pull) : M (list Pull) :=
  match pulls with
  | [] => ret []
  | pull :: rest =>
      let* r := request "statuses.getCombined" statuses_getCombined
                  (object [("repo", repo); ("user", user);
                           ("sha", JsString (sha (pull_head pull)))]) in
      match r with
      | Failed _ => throw "TypeError: Cannot read property 'state' of undefined"
      | Ok data =>
          let pull := set_combinedStatus (status_state data) pull in
          let* rest := addCombinedStatus user repo rest in
          ret (pull :: rest)
      end
  end.

(** The first three operations of [list]; the local variable [pulls] is
    returned with the error that ends the series, if any. *)
Definition list_operations (user repo : JsValue) (payload : Payload)
  : M (option Error * list Pull) :=
  let* r := request "pullRequests.getAll" pullRequests_getAll payload in
  let* options := get_options in
  let pulls :=
    match r with
    | Ok data =>
        if truthy (prop options "me")
        then filterPullsSentByMe_ options data
        else data
    | Failed _ => []
    end in
  let* err :=
    match r with
    | Failed err =>
        if code err =? 404
        then logger_warn ("Can't list pull requests for " +:+ ToString user +:+
                          "/" +:+ ToString (prop payload "repo")) >>
             ret None
        else ret (Some err)
    | Ok _ => ret None
    end in
  match err with
  | Some err => ret (Some err, pulls)
  | None =>
      let* (err, pulls) :=
        if truthy (prop options "sort")
           && strict_eq (prop options "sort") (JsString SORT_COMPLEXITY)
        then
          let* (err, data) := addComplexityParamToPulls_ pulls in
          match err with
          | None =>
              let* options := get_options in
              ret (None, sortPullsByComplexity_ options data)
          | Some err => ret (Some err, pulls)
          end
        else ret (None, pulls) in
      match err with
      | Some err => ret (Some err, pulls)
      | None =>
          let* pulls := addCombinedStatus user repo pulls in
          ret (None, pulls)
      end
  end.

(** The request built at the head of [list]. *)
Definition list_payload (options : gmap string JsValue) (user repo : JsValue)
  : Payload :=
  let sort :=
    if strict_eq (prop options "sort") (JsString SORT_COMPLEXITY)
    then JsString SORT_CREATED
    else prop options "sort" in
  object [("direction", prop options "direction"); ("repo", repo);
          ("sort", sort); ("state", prop options "state"); ("user", user)].

(** The fourth operation and the final callback of [list], when no
    operation failed: the pulls grouped by base branch are printed, unless
    there is none. *)
Definition list_report (user repo : JsValue) (pulls : list Pull) : M unit :=
  let* options := get_options in
  let json := getPullsTemplateJson_ options pulls in
  when (negb (Nat.eqb (length pulls) 0))
    (logger_log (colors_yellow (ToString user +:+ "/" +:+ ToString repo)) >>
     forEach json (fun branch =>
       logger_log (group_name branch +:+ " (" +:+
                   Number_toString (Z.of_nat (group_total branch)) +:+ ")") >>
       forEach (group_pulls branch) printPullInfo_)).

Definition list_ (user repo : JsValue) : M (option Error) :=
  let* options := get_options in
  let payload := list_payload options user repo in
  let* (err, pulls) := list_operations user repo payload in
  match err with
  | Some err => ret (Some err)
  | None => list_report user repo pulls >> ret None
  end.

(** The body of the [repositories.forEach]: one listing, its outcome handed
    to the callback of the caller. *)
Definition list_repository (opt_callback : option Error -> M unit)
    (repository : Repository) : M unit :=
  let* err := list_ (JsString (login (repository_owner repository)))
                    (JsString (repository_name repository)) in
  opt_callback err.

(** [base.github.repos[apiMethod](payload, ...)]: the repositories of the
    organization when one is given, of the user otherwise. *)
Definition repositories_request : M (Result (list Repository)) :=
  let* options := get_options in
  let payload :=
    object [("type", JsString "all"); ("user", prop options "user");
            ("per_page", JsNumber 100)] in
  if truthy (prop options "org")
  then request "repos.getFromOrg" repos_getFromOrg
         (<["org" := prop options "org"]> payload)
  else request "repos.getAll" repos_getAll payload.

Definition listFromAllRepositories (opt_callback : option Error -> M unit) : M unit :=
  let* r := repositories_request in
  match r with
  | Failed err => opt_callback (Some err)
  | Ok repositories => forEach repositories (list_repository opt_callback)
  end.

Definition listFromAllOrgRepositories (opt_callback : option Error -> M unit) : M unit :=
  let* options := get_options in
  let payload :=
    object [("type", JsString "all"); ("user", prop options "user");
            ("org", prop options "org"); ("per_page", JsNumber 100)] in
  let* r := request "repos.getFromOrg" repos_getFromOrg payload in
  match r with
  | Failed err => opt_callback (Some err)
  | Ok repositories => forEach repositories (list_repository opt_callback)
  end.
End Listing.

Section Actions.
Context `{Collaborators}.

Definition merge : M unit :=
  let* options := get_options in
  let method := if truthy (prop options "rebase") then GitRebase else GitMerge in
  git (GitCheckout (prop options "branch")) >>
  git (method (prop options "pullBranch")) >>
  git (GitPush (default_remote config) (prop options "branch")) >>
  git (GitDeleteBranch (prop options "pullBranch")).

Definition open : M (Callback Pull) :=
  let* r := getPullRequest_ in
  match r with
  | Failed err => ret (Some err, None)
  | Ok pull =>
      let* r2 := updatePullRequest_ (pull_title pull) (pull_body pull) STATE_OPEN in
      match r2 with
      | Failed err => ret (Some err, None)
      | Ok data => ret (None, Some data)
      end
  end.

Definition setMergeCommentRequiredOptions_ : M unit :=
  let* lastCommitSHA := git_getLastCommitSHA in
  let* changes := git_countUserAdjacentCommits in
  set_opt "currentSHA" (JsString lastCommitSHA) >>
  when (0 <? changes) (set_opt "changes" (JsNumber changes)) >>
  set_opt "pullHeadSHA"
    (JsString (lastCommitSHA +:+ "~" +:+ Number_toString changes)).

(** The three operations of [submit], in series; none but the last reports
    an error. *)
Definition submit_operations (user : JsValue) : M (Result Pull) :=
  let* options := get_options in
  let pullBranch :=
    logical_or (prop options "pullBranch") (prop options "currentBranch") in
  git (GitPush (default_remote config) pullBranch) >>
  let* title := opt "title" in
  when (negb (truthy title))
    (let* message := git_getLastCommitMessage pullBranch in
     set_opt "title" (JsString message)) >>
  let* options := get_options in
  let payload :=
    object [("base", prop options "branch");
            ("head", JsString (ToString (prop options "user") +:+ ":" +:+
                               ToString pullBranch));
            ("repo", prop options "repo"); ("user", user)] in
  if truthy (prop options "issue")
  then request "pullRequests.createFromIssue" pullRequests_createFromIssue
         (<["issue" := prop options "issue"]> payload)
  else request "pullRequests.create" pullRequests_create
         (<["title" := prop options "title"]>
            (<["body" := prop options "description"]> payload)).

Definition submit (user : JsValue) : M (Callback Pull) :=
  let* r := submit_operations user in
  match r with
  | Failed err => checkPullRequestIntegrity_ err user
  | Ok data => ret (None, Some data)
  end.

Definition forward : M (Callback Pull) :=
  let* (err, data) := fetch FETCH_TYPE_SILENT in
  match err, data with
  | Some err, _ => ret (Some err, None)
  | None, None => throw "TypeError: Cannot read property 'title' of undefined"
  | None, Some pull =>
      set_opt "title" (JsString (pull_title pull)) >>
      set_opt "description" (of_option_string (pull_body pull)) >>
      set_opt "submittedUser" (JsString (login (pull_user pull))) >>
      let* fwd := opt "fwd" in
      let* (err, data) := submit fwd in
      match err, data with
      | Some err, _ => ret (Some err, None)
      | None, None => throw "TypeError: Cannot read property 'number' of undefined"
      | None, Some data =>
          set_opt "submittedPullNumber" (JsNumber (pull_number data)) >>
          ret (None, Some data)
      end
  end.
End Actions.

(** ** Handlers and dispatch *)

Section Handlers.
Context `{Extensions}.

Definition _fetchHandler : M unit :=
  let* options := get_options in
  let fetchType :=
    if truthy (prop options "merge") then FETCH_TYPE_MERGE
    else if truthy (prop options "rebase") then FETCH_TYPE_REBASE
    else FETCH_TYPE_CHECKOUT in
  hooks_invoke "pull-request.fetch" (fun afterHooksCallback =>
    let* options := get_options in
    let (operation, branch) :=
      if truthy (prop options "rebase")
      then (" and rebasing", prop options "currentBranch")
      else if truthy (prop options "merge")
      then (" and merging", prop options "currentBranch")
      else ("", prop options "pullBranch") in
    logger_log ("Fetching pull request " +:+
                colors_green ("#" +:+ ToString (prop options "number")) +:+
                operation +:+ " into branch " +:+
                colors_green (ToString branch)) >>
    let* (err, _) := fetch fetchType in
    match err with
    | Some _ =>
        let* number := opt "number" in
        logger_error ("Can't fetch pull request " +:+ ToString number +:+ ".")
    | None => afterHooksCallback
    end).

Definition _mergeHandler : M unit :=
  hooks_invoke "pull-request.merge" (fun afterHooksCallback =>
    let* options := get_options in
    let operation :=
      if truthy (prop options "rebase") then "Rebasing" else "Merging" in
    logger_log (operation +:+ " pull request " +:+
                colors_green ("#" +:+ ToString (prop options "number")) +:+
                " into branch " +:+
                colors_green (ToString (prop options "branch"))) >>
    merge >>
    setMergeCommentRequiredOptions_ >>
    afterHooksCallback).

Definition _fwdHandler : M unit :=
  hooks_invoke "pull-request.fwd" (fun afterHooksCallback =>
    let* options := get_options in
    logger_log ("Forwarding pull request " +:+
                colors_green ("#" +:+ ToString (prop options "number")) +:+
                " to " +:+
                colors_magenta ("@" +:+ ToString (prop options "fwd"))) >>
    let* (err, pull) := forward in
    match err, pull with
    | Some _, _ =>
        let* options := get_options in
        logger_error ("Can't forward pull request " +:+
                      ToString (prop options "number") +:+ " to " +:+
                      ToString (prop options "fwd") +:+ ".")
    | None, None => throw "TypeError: Cannot read property 'html_url' of undefined"
    | None, Some pull =>
        set_opt "forwardedPull" (JsNumber (pull_number pull)) >>
        logger_log (html_url pull) >>
        setMergeCommentRequiredOptions_ >>
        afterHooksCallback
    end).

Definition _closeHandler : M unit :=
  hooks_invoke "pull-request.close" (fun afterHooksCallback =>
    let* number := opt "number" in
    logger_log ("Closing pull request " +:+
                colors_green ("#" +:+ ToString number)) >>
    let* (err, pull) := close in
    match err, pull with
    | Some _, _ =>
        let* number := opt "number" in
        logger_warn ("Can't close pull request " +:+ ToString number +:+ ".")
    | None, None => throw "TypeError: Cannot read property 'html_url' of undefined"
    | None, Some pull =>
        logger_log (html_url pull) >>
        setMergeCommentRequiredOptions_ >>
        afterHooksCallback
    end).

Definition _commentHandler : M unit :=
  let* number := opt "number" in
  logger_log ("Adding comment on pull request " +:+
              colors_green ("#" +:+ ToString number)) >>
  let* (err, pull) := issue_comment in
  match err, pull with
  | Some _, _ =>
      let* number := opt "number" in
      logger_error ("Can't comment on pull request " +:+ ToString number +:+ ".")
  | None, None => throw "TypeError: Cannot read property 'html_url' of undefined"
  | None, Some pull => logger_log (comment_html_url pull)
  end.

(** [get] ignores the callback it is handed. *)
Definition _infoHandler : M unit :=
  let* options := get_options in
  get (prop options "user") (prop options "repo") (prop options "number").

Definition _listHandler : M unit :=
  let* sort := opt "sort" in
  set_opt "sort" (logical_or sort (JsString SORT_CREATED)) >>
  let* direction := opt "direction" in
  set_opt "direction" (logical_or direction (JsString DIRECTION_DESC)) >>
  let* options := get_options in
  if truthy (prop options "all")
  then
    let who :=
      if truthy (prop options "org") then prop options "org"
      else prop options "user" in
    logger_log ("Listing all " +:+ ToString (prop options "state") +:+
                " pull requests for " +:+ colors_green (ToString who)) >>
    listFromAllRepositories (fun err =>
      match err with
      | Some _ => logger_error "Can't list all pull requests from repos."
      | None => ret tt
      end)
  else
    (if truthy (prop options "me")
     then logger_log ("Listing " +:+ ToString (prop options "state") +:+
                      " pull requests sent by " +:+
                      colors_green (ToString (prop options "loggedUser")) +:+
                      " on " +:+
                      colors_green (ToString (prop options "user") +:+ "/" +:+
                                    ToString (prop options "repo")))
     else logger_log ("Listing " +:+ ToString (prop options "state") +:+
                      " pull requests on " +:+
                      colors_green (ToString (prop options "user") +:+ "/" +:+
                                    ToString (prop options "repo")))) >>
    let* err := list_ (prop options "user") (prop options "repo") in
    match err with
    | Some _ => logger_error "Can't list pull requests."
    | None => ret tt
    end.

Definition _openHandler : M unit :=
  hooks_invoke "pull-request.open" (fun afterHooksCallback =>
    let* number := opt "number" in
    logger_log ("Opening pull request " +:+
                colors_green ("#" +:+ ToString number)) >>
    let* (err, pull) := open in
    match err, pull with
    | Some _, _ =>
        let* number := opt "number" in
        logger_error ("Can't open pull request " +:+ ToString number +:+ ".")
    | None, None => throw "TypeError: Cannot read property 'html_url' of undefined"
    | None, Some pull => logger_log (html_url pull) >> afterHooksCallback
    end).

Definition _submitHandler : M unit :=
  hooks_invoke "pull-request.submit" (fun afterHooksCallback =>
    let* target := opt "submit" in
    logger_log ("Submitting pull request to " +:+
                colors_magenta ("@" +:+ ToString target)) >>
    let* target := opt "submit" in
    let* (err, pull) := submit target in
    match err, pull with
    | Some err, _ =>
        try_catch
          (match first_error_message (message err) with
           | Some detail => logger_error ("Can't submit pull request. " +:+ detail)
           | None => throw "SyntaxError: Unexpected token in JSON"
           end)
          (console_error err)
    | None, None => throw "TypeError: Cannot read property 'html_url' of undefined"
    | None, Some pull =>
        set_opt "submittedPull" (JsNumber (pull_number pull)) >>
        logger_log (html_url pull) >>
        setMergeCommentRequiredOptions_ >>
        afterHooksCallback
    end).

Definition run : M unit :=
  let* number := opt "number" in
  let* number :=
    if truthy number then ret number
    else
      let* currentBranch := opt "currentBranch" in
      match getPullRequestNumberFromBranch_ currentBranch
              (pull_branch_name_prefix config) with
      | Some decoded => ret decoded
      | None => throw "TypeError: currentBranch.replace is not a function"
      end in
  set_opt "number" number >>
  let* number := opt "number" in
  set_opt "pullBranch" (getBranchNameFromPullNumber_ config number) >>
  let* state := opt "state" in
  set_opt "state" (logical_or state (JsString STATE_OPEN)) >>
  let* options := get_options in
  when (negb (truthy (prop options "pullBranch"))
        && (truthy (prop options "close") || truthy (prop options "fetch")
            || truthy (prop options "merge")))
    (logger_error "You've invoked a method that requires an issue number.") >>
  when (truthy (prop options "browser"))
    (browser (prop options "user") (prop options "repo") (prop options "number")) >>
  when (negb (truthy (prop options "list")))
    (set_opt "branch"
       (logical_or (prop options "branch") (JsString (default_branch config)))) >>
  when (truthy (prop options "close")) _closeHandler >>
  let* comment := opt "comment" in
  when (truthy comment) _commentHandler >>
  let* options := get_options in
  (if truthy (prop options "fetch") then _fetchHandler
   else when (truthy (prop options "merge") || truthy (prop options "rebase"))
          _mergeHandler) >>
  let* fwd := opt "fwd" in
  when (strict_eq fwd (JsString ""))
    (set_opt "fwd" (JsString (default_pr_forwarder config))) >>
  let* fwd := opt "fwd" in
  when (truthy fwd) _fwdHandler >>
  let* info := opt "info" in
  when (truthy info) _infoHandler >>
  let* list := opt "list" in
  when (truthy list) _listHandler >>
  let* open := opt "open" in
  when (truthy open) _openHandler >>
  let* target := opt "submit" in
  when (strict_eq target (JsString ""))
    (set_opt "submit" (JsString (default_pr_reviewer config))) >>
  let* target := opt "submit" in
  when (truthy target) _submitHandler.
End Handlers.

(** ** Vocabulary of the properties *)

Section Vocabulary.
Context `{Collaborators}.

(** However [m] ends, the state it ends in is related by [R] to the state
    it started in. *)
Definition maintains (R : State -> State -> Prop) {A} (m : M A) : Prop :=
  forall st, R st (m st).2.

(** Every property of [options] other than [k] is as it was. *)
Definition same_options_but (k : string) (st st' : State) : Prop :=
  forall k', k' <> k -> options st' !! k' = options st !! k'.

Definition same_options (st st' : State) : Prop :=
  options st' = options st.

(** The trace has grown by calls that all satisfy [P]. *)
Definition appends (P : Event -> Prop) (st st' : State) : Prop :=
  exists evs, events st' = events st ++ evs /\ Forall P evs.

(** A request that asks the remote service to sort by complexity. *)
Definition sorts_by_complexity (e : Event) : Prop :=
  match e with
  | EvApi _ payload => prop payload "sort" = JsString SORT_COMPLEXITY
  | _ => False
  end.

(** A listing request. *)
Definition is_listing (e : Event) : Prop :=
  match e with
  | EvApi "pullRequests.getAll" _ => True
  | _ => False
  end.

(** A call that is neither a listing request nor a request sorted by
    complexity. *)
Definition other_request (e : Event) : Prop :=
  ~ is_listing e /\ ~ sorts_by_complexity e.

(** The state after the listing of [owner/name] was answered by a warning:
    the request and the warning are on the trace, nothing else changed but
    the world, which the request left as [w]. *)
Definition warned (st : State) (w : World) (owner name : string) : State :=
  {| options := options st; world := w;
     events := events st
               ++ [EvApi "pullRequests.getAll"
                     (list_payload (options st) (JsString owner) (JsString name));
                   EvWarn ("Can't list pull requests for " +:+ owner +:+ "/" +:+
                           name)] |}.
End Vocabulary.

(** Exactly one of the five metrics is larger in [m'], the others equal. *)
Definition single_increase (m m' : Metrics) : Prop :=
  (additions m < additions m' /\ changedFiles m = changedFiles m'
   /\ comments m = comments m' /\ deletions m = deletions m'
   /\ reviewComments m = reviewComments m')
  \/ (additions m = additions m' /\ changedFiles m < changedFiles m'
      /\ comments m = comments m' /\ deletions m = deletions m'
      /\ reviewComments m = reviewComments m')
  \/ (additions m = additions m' /\ changedFiles m = changedFiles m'
      /\ comments m < comments m' /\ deletions m = deletions m'
      /\ reviewComments m = reviewComments m')
  \/ (additions m = additions m' /\ changedFiles m = changedFiles m'
      /\ comments m = comments m' /\ deletions m < deletions m'
      /\ reviewComments m = reviewComments m')
  \/ (additions m = additions m' /\ changedFiles m = changedFiles m'
      /\ comments m = comments m' /\ deletions m = deletions m'
      /\ reviewComments m < reviewComments m').

(** [a] has a score, [b] has a score, and the score of [a] is the greater. *)
Definition outranks (a b : Pull) : Prop :=
  complexity_gt (complexity a) (complexity b) = true.

(** ** Vocabulary of the further properties *)

(** The three ways a computation ends. *)
Inductive Ending : Type := Returned | Exited | Thrown.

Definition ending {A} (o : Outcome A) : Ending :=
  match o with
  | Done _ => Returned
  | Exit _ => Exited
  | Throw _ => Thrown
  end.

(** A version-control call. *)
Definition is_git (e : Event) : Prop :=
  match e with
  | EvGit _ => True
  | _ => False
  end.

(** A request that changes the remote service. *)
Definition is_write (e : Event) : Prop :=
  match e with
  | EvApi method _ =>
      method = "pullRequests.create" \/ method = "pullRequests.createFromIssue"
      \/ method = "pullRequests.update"
  | _ => False
  end.

(** A call that leaves the working tree and the remote service as they
    are and opens no page: a read request or a line of output. *)
Definition read_only (e : Event) : Prop :=
  match e with
  | EvApi _ _ => ~ is_write e
  | EvLog _ | EvWarn _ | EvError _ | EvConsoleError _ => True
  | EvGit _ | EvOpenUrl _ => False
  end.

(** A command that moves the checked-out branch or changes its history. *)
Definition switches_branch (e : Event) : Prop :=
  match e with
  | EvGit (GitCheckout _) | EvGit (GitMerge _) | EvGit (GitRebase _) => True
  | _ => False
  end.

(** The requests of a trace, in order. *)
Definition requests (evs : list Event) : list (string * Payload) :=
  omap (fun e => match e with EvApi method payload => Some (method, payload)
                            | _ => None end) evs.

(** The version-control commands of a trace, in order. *)
Definition git_commands (evs : list Event) : list GitCmd :=
  omap (fun e => match e with EvGit cmd => Some cmd | _ => None end) evs.

Section Endings.
Context `{Collaborators}.

(** However [m] is started, the way it ends is one of [E]. *)
Definition ends_within (E : Ending -> Prop) {A} (m : M A) : Prop :=
  forall st, E (ending (m st).1).
End Endings.

(** The base branches of the pulls that pass the branch filter of
    [getPullsTemplateJson_], each once, in order of first appearance. *)
Fixpoint first_seen (names : list string) : list string :=
  match names with
  | [] => []
  | name :: rest =>
      name :: filter (fun other => other <> name) (first_seen rest)
  end.

Definition passes_branch_filter (options : gmap string JsValue) (pull : Pull) : Prop :=
  negb (truthy (prop options "branch"))
  || strict_eq (prop options "branch") (JsString (ref (pull_base pull))) = true.

(** The object [branches] of [getPullsTemplateJson_] once [pulls] were
    pushed onto [start]. *)
Definition grouped (options : gmap string JsValue)
    (start : list (string * list Pull)) (pulls : list Pull)
  : list (string * list Pull) :=
  fold_left
    (fun branches pull =>
       let branch := ref (pull_base pull) in
       if negb (truthy (prop options "branch"))
          || strict_eq (prop options "branch") (JsString branch)
       then push_to_branch branch pull branches
       else branches)
    pulls start.

#[global] Instance passes_branch_filter_dec (options : gmap string JsValue)
    (pull : Pull) : Decision (passes_branch_filter options pull).
Proof. unfold passes_branch_filter. apply _. Defined.

(** Both pulls have a score and the score of [a] is not the smaller. *)
Definition at_least (a b : Pull) : Prop :=
  match complexity a, complexity b with
  | Some x, Some y => y <= x
  | _, _ => False
  end.

(** ** Concrete inputs used by the examples *)

Definition example_config : Config :=
  {| pull_branch_name_prefix := "pr-";
     default_branch := "master";
     default_remote := "origin";
     github_host := "https://github.com/";
     default_pr_forwarder := "";
     default_pr_reviewer := "" |}.

Definition example_user (name : string) : User := {| login := name |}.

Definition example_branch (name commit owner : string) : Branch :=
  {| ref := name; sha := commit; branch_user := example_user owner;
     branch_repo := {| ssh_url := "git@github.com:" +:+ owner +:+ "/gh.git" |} |}.

(** A pull request numbered [n] from [feature] of [eduardo] into [master] of
    [node-gh], with the given score already attached. *)
Definition example_pull (n : Z) (score : option Z) : Pull :=
  {| pull_number := n; pull_title := "Fix"; pull_body := None;
     pull_state := "open";
     pull_base := example_branch "master" "abc" "node-gh";
     pull_head := example_branch "feature" "abc" "eduardo";
     pull_user := example_user "eduardo";
     created_at := "2018-01-01T00:00:00Z";
     html_url := "https://github.com/node-gh/gh/pull/1";
     mergeable_state := None;
     pull_additions := 0; changed_files := 0; pull_comments := 0;
     pull_deletions := 0; review_comments := 0;
     complexity := score; combinedStatus := None |}.

(** Collaborators that answer every request alike: the world has no state,
    the version-control commands succeed, the colours leave the text as it
    is. *)
Definition mock_collaborators (got : Result Pull) (listed : Result (list Pull))
    (created : Result Pull) (repositories : Result (list Repository))
  : Collaborators :=
  {| World := unit;
     config := example_config;
     pullRequests_get := fun _ w => (got, w);
     pullRequests_getAll := fun _ w => (listed, w);
     pullRequests_create := fun _ w => (created, w);
     pullRequests_createFromIssue := fun _ w => (created, w);
     pullRequests_update := fun _ w => (got, w);
     statuses_getCombined := fun _ w => (Ok {| status_state := "success" |}, w);
     repos_getAll := fun _ w => (repositories, w);
     repos_getFromOrg := fun _ w => (repositories, w);
     git_run := fun _ w => w;
     git_lastCommitSHA := fun _ => "abc";
     git_userAdjacentCommits := fun _ => 1;
     git_lastCommitMessage := fun _ _ => "Fix";
     colors_green := fun s => s;
     colors_red := fun s => s;
     colors_magenta := fun s => s;
     colors_blue := fun s => s;
     colors_yellow := fun s => s;
     logger_getDuration := fun _ => "1 day ago";
     logger_applyReplacements := fun s => s;
     first_error_message := fun _ => None |}.

(** The state at the start of an invocation with the given options. *)
Definition mock_state (got : Result Pull) (listed : Result (list Pull))
    (created : Result Pull) (repositories : Result (list Repository))
    (o : gmap string JsValue)
  : @State (mock_collaborators got listed created repositories) :=
  @Build_State (mock_collaborators got listed created repositories) o tt [].

Definition example_error (status : Z) : Error :=
  {| code := status; message := "Validation Failed" |}.

(** The options of a submit of branch [feature] of [eduardo] against
    [master]. *)
Definition example_options : gmap string JsValue :=
  object [("user", JsString "eduardo"); ("repo", JsString "gh");
          ("branch", JsString "master"); ("currentBranch", JsString "feature");
          ("title", JsString "Fix")].

(** The options of a listing of [node-gh/gh] sorted by complexity, reached
    with pull request 5 resolved. *)
Definition example_listing_options : gmap string JsValue :=
  object [("user", JsString "node-gh"); ("repo", JsString "gh");
          ("number", JsString "5"); ("list", JsBool true);
          ("state", JsString "open"); ("sort", JsString "complexity");
          ("direction", JsString "desc")].

(** No hooks are configured and the comment of the issue command succeeds. *)
Definition mock_extensions (got : Result Pull) (listed : Result (list Pull))
    (created : Result Pull) (repositories : Result (list Repository))
  : @Extensions (mock_collaborators got listed created repositories) :=
  {| hooks_before := fun _ => ret tt;
     hooks_after := fun _ => ret tt;
     issue_comment :=
       ret (None, Some {| comment_html_url := "https://github.com/node-gh/gh/pull/1" |}) |}.

(** [gh pr --close] on branch [master], with no number given. *)
Definition example_close_options : gmap string JsValue :=
  object [("user", JsString "node-gh"); ("repo", JsString "gh");
          ("currentBranch", JsString "master"); ("close", JsBool true)].

(** An invocation on branch [pr-42] that asks for nothing. *)
Definition example_branch_options : gmap string JsValue :=
  object [("user", JsString "node-gh"); ("repo", JsString "gh");
          ("currentBranch", JsString "pr-42")].

(** [gh pr --rebase] on branch [master], with no number given. *)
Definition example_rebase_options : gmap string JsValue :=
  object [("user", JsString "node-gh"); ("repo", JsString "gh");
          ("currentBranch", JsString "master"); ("rebase", JsBool true)].

Definition example_repository (name : string) : Repository :=
  {| repository_owner := example_user "node-gh"; repository_name := name |}.

(** The answers a scripted service still has to give: one per detail
    request and one per status request, in order. *)
Record Script : Type := {
  script_details : list (Result Pull);
  script_statuses : list (Result CombinedStatus)
}.

(** Collaborators that answer the detail and the status requests from a
    script, and fail them once the script is used up; every other request
    is answered as by [mock_collaborators], and the message of an error is
    read as the JSON of the hosting API. *)
Definition scripted_collaborators (listed : Result (list Pull)) : Collaborators :=
  {| World := Script;
     config := example_config;
     pullRequests_get := fun _ w =>
       match script_details w with
       | answer :: rest =>
           (answer, {| script_details := rest; script_statuses := script_statuses w |})
       | [] => (Failed (example_error 500), w)
       end;
     pullRequests_getAll := fun _ w => (listed, w);
     pullRequests_create := fun _ w => (Failed (example_error 422), w);
     pullRequests_createFromIssue := fun _ w => (Failed (example_error 422), w);
     pullRequests_update := fun _ w => (Failed (example_error 500), w);
     statuses_getCombined := fun _ w =>
       match script_statuses w with
       | answer :: rest =>
           (answer, {| script_details := script_details w; script_statuses := rest |})
       | [] => (Failed (example_error 500), w)
       end;
     repos_getAll := fun _ w => (Failed (example_error 500), w);
     repos_getFromOrg := fun _ w => (Failed (example_error 500), w);
     git_run := fun _ w => w;
     git_lastCommitSHA := fun _ => "abc";
     git_userAdjacentCommits := fun _ => 1;
     git_lastCommitMessage := fun _ _ => "Fix";
     colors_green := fun s => s;
     colors_red := fun s => s;
     colors_magenta := fun s => s;
     colors_blue := fun s => s;
     colors_yellow := fun s => s;
     logger_getDuration := fun _ => "1 day ago";
     logger_applyReplacements := fun s => s;
     first_error_message := fun text => Some text |}.

(** The state at the start of an invocation against the scripted service. *)
Definition scripted_state (listed : Result (list Pull)) (script : Script)
    (o : gmap string JsValue)
  : @State (scripted_collaborators listed) :=
  @Build_State (scripted_collaborators listed) o script [].

(** No hooks are configured against the scripted service and the comment of
    the issue command fails. *)
Definition scripted_extensions (listed : Result (list Pull))
  : @Extensions (scripted_collaborators listed) :=
  {| hooks_before := fun _ => ret tt;
     hooks_after := fun _ => ret tt;
     issue_comment := ret (Some (example_error 500), None) |}.

(** * Properties *)

(** ** Strings *)

Lemma prefix_append (p s : string) : String.prefix p (p +:+ s) = true.
Proof.
  induction p as [|a p IH]; simpl.
  - by destruct s.
  - by destruct (ascii_dec a a).
Qed.

Lemma prefix_split (p b : string) :
  String.prefix p b = true -> exists rest, b = p +:+ rest.
Proof.
  revert b; induction p as [|a p IH]; intros b Hp.
  - by exists b.
  - destruct b as [|c b]; simpl in Hp; [done|].
    destruct (ascii_dec a c) as [->|]; [|done].
    destruct (IH _ Hp) as [rest ->]. by exists rest.
Qed.

Lemma index_prefix (p b : string) :
  String.prefix p b = true -> String.index 0 p b = Some 0%nat.
Proof.
  destruct b as [|c b]; simpl.
  - by destruct p.
  - by intros ->.
Qed.

Lemma substring_whole (s : string) : substring 0 (String.length s) s = s.
Proof. induction s as [|c s IH]; simpl; [done|]. by rewrite IH. Qed.

Lemma substring_skip_prefix (p s : string) :
  substring (String.length p) (String.length (p +:+ s) - String.length p) (p +:+ s)
  = s.
Proof.
  induction p as [|a p IH]; simpl.
  - rewrite Nat.sub_0_r. apply substring_whole.
  - apply IH.
Qed.

Lemma substring_0_0 (s : string) : substring 0 0 s = "".
Proof. by destruct s. Qed.

(** Replacing a leading [p] by the empty string strips it. *)
Lemma String_replace_prefix (p rest : string) :
  String_replace (p +:+ rest) p "" = rest.
Proof.
  unfold String_replace.
  rewrite (index_prefix _ _ (prefix_append p rest)).
  rewrite substring_0_0. simpl. apply substring_skip_prefix.
Qed.

Lemma Number_toString_nonempty (n : Z) : Number_toString n <> "".
Proof.
  unfold Number_toString.
  destruct n as [|q|q]; simpl; [done| |done].
  unfold NilZero.string_of_uint.
  pose proof (Unsigned.to_uint_nonnil q) as Hq.
  destruct (Pos.to_uint q); done.
Qed.

Lemma parseDecimal_Number_toString (n : Z) :
  parseDecimal (Number_toString n) = Some n.
Proof.
  unfold parseDecimal, Number_toString.
  rewrite NilZero.isi.
  - simpl. by rewrite DecimalZ.of_to.
  - destruct n as [|q|q]; simpl; [done| |done].
    intros [=Hq]. by apply (Unsigned.to_uint_nonnil q).
  - destruct n as [|q|q]; simpl; [done|done|].
    intros [=Hq]. by apply (Unsigned.to_uint_nonnil q).
Qed.

Lemma append_nonempty_r (p s : string) : s <> "" -> p +:+ s <> "".
Proof. destruct p; simpl; [done|]. intros _ [=]. Qed.

Lemma truthy_JsString (s : string) : s <> "" -> truthy (JsString s) = true.
Proof.
  intros Hs. simpl. destruct (String.eqb_spec s ""); done.
Qed.

(** ** BranchIdentifierCodec *)

(** Decoding a non-empty branch name that carries the prefix. *)
Lemma decode_prefixed (p rest : string) :
  p +:+ rest <> "" ->
  getPullRequestNumberFromBranch_ (JsString (p +:+ rest)) p = Some (JsString rest).
Proof.
  intros Hne. unfold getPullRequestNumberFromBranch_, startsWith.
  rewrite truthy_JsString by done. simpl ToString.
  rewrite prefix_append. simpl. by rewrite String_replace_prefix.
Qed.

(** C2, as amended: for every positive integer [n] and every configured
    prefix, decoding the branch name that encodes [n] gives back [n], as
    its decimal text, which reads back as the number [n]; and a number
    handed over as non-empty text, ["0"] included, comes back as that
    text. *)
Theorem decode_encode_positive (config : Config) (n : Z) (s : string) :
  (0 < n ->
   getPullRequestNumberFromBranch_
     (getBranchNameFromPullNumber_ config (JsNumber n))
     (pull_branch_name_prefix config)
   = Some (JsString (Number_toString n)))
  /\ parseDecimal (Number_toString n) = Some n
  /\ (s <> "" ->
      getPullRequestNumberFromBranch_
        (getBranchNameFromPullNumber_ config (JsString s))
        (pull_branch_name_prefix config)
      = Some (JsString s)).
Proof.
  split; [|split; [apply parseDecimal_Number_toString|]].
  - intros Hn. unfold getBranchNameFromPullNumber_. simpl truthy.
    destruct (Z.eqb_spec n 0) as [->|_]; [lia|]. simpl.
    apply decode_prefixed, append_nonempty_r, Number_toString_nonempty.
  - intros Hs. unfold getBranchNameFromPullNumber_.
    rewrite truthy_JsString by done. simpl.
    by apply decode_prefixed, append_nonempty_r.
Qed.

Lemma decode_encode_positive_witness :
  0 < 42
  /\ getPullRequestNumberFromBranch_
       (getBranchNameFromPullNumber_ example_config (JsNumber 42)) "pr-"
     = Some (JsString "42")
  /\ parseDecimal "42" = Some 42
  /\ getPullRequestNumberFromBranch_
       (getBranchNameFromPullNumber_ example_config (JsString "0")) "pr-"
     = Some (JsString "0").
Proof.
  destruct (decode_encode_positive example_config 42 "0") as (Hn & Hparse & Hs).
  split; [lia|]. split; [apply Hn; lia|]. split; [exact Hparse|].
  apply Hs. discriminate.
Defined.

(** C2 fails at zero: the encoder returns [undefined] for the falsy number
    [0], and so does the decoder; the result is neither the number nor its
    text. *)
Lemma decode_encode_zero :
  getPullRequestNumberFromBranch_
    (getBranchNameFromPullNumber_ example_config (JsNumber 0)) "pr-"
  = Some JsUndefined
  /\ getPullRequestNumberFromBranch_
       (getBranchNameFromPullNumber_ example_config (JsNumber 0)) "pr-"
     <> Some (JsString (Number_toString 0))
  /\ getPullRequestNumberFromBranch_
       (getBranchNameFromPullNumber_ example_config (JsNumber 0)) "pr-"
     <> Some (JsNumber 0).
Proof. repeat split; done. Qed.

(** C3, as amended: the encoder returns the prefix followed by the number
    when the number is truthy and [undefined] when it is falsy; the decoder
    returns [undefined] unless the branch name is non-empty and starts with
    the prefix, and otherwise the branch name without its prefix, as text. *)
Theorem codec_behaviour (config : Config) (number : JsValue) (b p rest : string) :
  getBranchNameFromPullNumber_ config number
  = (if truthy number
     then JsString (pull_branch_name_prefix config +:+ ToString number)
     else JsUndefined)
  /\ getPullRequestNumberFromBranch_ (JsString b) p
     = Some (if negb (String.eqb b "") && String.prefix p b
             then JsString (substring (String.length p)
                              (String.length b - String.length p) b)
             else JsUndefined)
  /\ getPullRequestNumberFromBranch_ (JsString (p +:+ rest)) p
     = Some (if String.eqb (p +:+ rest) "" then JsUndefined else JsString rest)
  /\ getPullRequestNumberFromBranch_ JsUndefined p = Some JsUndefined.
Proof.
  split; [done|]. split; [|split; [|done]].
  - unfold getPullRequestNumberFromBranch_, startsWith. simpl.
    destruct (String.eqb_spec b "") as [->|Hb]; simpl; [done|].
    destruct (String.prefix p b) eqn:Hp; [|done].
    destruct (prefix_split _ _ Hp) as [r ->].
    by rewrite String_replace_prefix, substring_skip_prefix.
  - destruct (String.eqb_spec (p +:+ rest) "") as [Heq|Hne].
    + unfold getPullRequestNumberFromBranch_. rewrite Heq. done.
    + by apply decode_prefixed.
Qed.

(** C3 fails as stated: the encoder is guarded, and for the number [0] it
    returns [undefined], not the prefix followed by ["0"]; the decoder
    returns [undefined] for the empty branch name although it starts with
    the empty prefix. *)
Lemma encode_not_unconditional :
  getBranchNameFromPullNumber_ example_config (JsNumber 0) = JsUndefined
  /\ getBranchNameFromPullNumber_ example_config (JsNumber 0)
     <> JsString (pull_branch_name_prefix example_config +:+ ToString (JsNumber 0))
  /\ startsWith "" "" = true
  /\ getPullRequestNumberFromBranch_ (JsString "") "" = Some JsUndefined.
Proof. repeat split; done. Qed.

(** ** ComplexityScorer *)



(** ** Sorting by complexity *)

Section SortFacts.
Context {A : Type} (compareFn : A -> A -> Z).

Lemma sort_insert_Permutation (x : A) (l : list A) :
  sort_insert compareFn x l ≡ₚ x :: l.
Proof.
  induction l as [|y l IH]; simpl; [done|].
  destruct (compareFn x y <=? 0); [done|].
  rewrite IH. apply perm_swap.
Qed.

Lemma Array_sort_Permutation (l : list A) : Array_sort compareFn l ≡ₚ l.
Proof.
  induction l as [|x l IH]; simpl; [done|].
  by rewrite sort_insert_Permutation, IH.
Qed.

(** Stability: within a class [P] whose members never compare as
    out of order, the sort keeps the order of the input. *)
Context (P : A -> Prop) `{forall x, Decision (P x)}.
Hypothesis class_tied : forall x y, P x -> P y -> compareFn x y <= 0.

Lemma sort_insert_stable (x : A) (l : list A) :
  filter P (sort_insert compareFn x l) = filter P (x :: l).
Proof.
  induction l as [|y l IH]; simpl; [done|].
  destruct (Z.leb_spec (compareFn x y) 0) as [Hle|Hgt]; [done|].
  rewrite !filter_cons in *.
  destruct (decide (P y)) as [Hy|Hy]; rewrite IH;
    destruct (decide (P x)) as [Hx|Hx]; try done.
  pose proof (class_tied x y Hx Hy). lia.
Qed.

Lemma Array_sort_stable (l : list A) :
  filter P (Array_sort compareFn l) = filter P l.
Proof.
  induction l as [|x l IH]; simpl; [done|].
  rewrite sort_insert_stable, !filter_cons. by rewrite IH.
Qed.
End SortFacts.

Lemma outranks_trans (a b c : Pull) : outranks a b -> outranks b c -> outranks a c.
Proof.
  unfold outranks, complexity_gt.
  destruct (complexity a), (complexity b), (complexity c); try done. lia.
Qed.

Lemma compareComplexity_le (a b : Pull) :
  is_Some (complexity a) -> is_Some (complexity b) ->
  complexity a <> complexity b ->
  compareComplexity a b <= 0 -> outranks a b.
Proof.
  intros [x Hx] [y Hy] Hne. unfold compareComplexity, outranks.
  rewrite Hx, Hy in *. simpl.
  destruct (Z.ltb_spec y x), (Z.ltb_spec x y); try done; try lia.
  destruct Hne. f_equal. lia.
Qed.

Lemma compareComplexity_gt (a b : Pull) :
  0 < compareComplexity a b -> outranks b a.
Proof.
  unfold compareComplexity, outranks.
  destruct (complexity_gt (complexity a) (complexity b)); [lia|].
  destruct (complexity_gt (complexity b) (complexity a)); [done|lia].
Qed.

Lemma sort_insert_outranks (x : Pull) (l : list Pull) :
  is_Some (complexity x) ->
  Forall (fun y => is_Some (complexity y)) l ->
  Forall (fun y => complexity x <> complexity y) l ->
  StronglySorted outranks l ->
  StronglySorted outranks (sort_insert compareComplexity x l).
Proof.
  intros Hx. induction l as [|y l IH]; intros Hsome Hne Hsorted; simpl.
  - by repeat constructor.
  - inversion Hsome as [|? ? Hy Hsome']; subst.
    inversion Hne as [|? ? Hxy Hne']; subst.
    inversion Hsorted as [|? ? Hl Hyl]; subst.
    destruct (Z.leb_spec (compareComplexity x y) 0) as [Hle|Hgt].
    + pose proof (compareComplexity_le x y Hx Hy Hxy Hle) as Hout.
      constructor; [done|]. constructor; [done|].
      eapply Forall_impl; [exact Hyl|]. intros z. by apply outranks_trans.
    + constructor; [by apply IH|].
      eapply Permutation_Forall.
      * symmetry. apply sort_insert_Permutation.
      * constructor; [by apply compareComplexity_gt|done].
Qed.

Lemma Array_sort_outranks (l : list Pull) :
  Forall (fun p => is_Some (complexity p)) l ->
  NoDup (complexity <$> l) ->
  StronglySorted outranks (Array_sort compareComplexity l).
Proof.
  induction l as [|x l IH]; intros Hsome Hnodup; simpl; [constructor|].
  inversion Hsome as [|? ? Hx Hsome']; subst.
  apply NoDup_cons in Hnodup as [Hnotin Hnodup].
  apply sort_insert_outranks; [done| | |by apply IH].
  - eapply Permutation_Forall; [symmetry; apply Array_sort_Permutation|done].
  - eapply Permutation_Forall; [symmetry; apply Array_sort_Permutation|].
    apply Forall_forall. intros y Hy Heq. apply Hnotin.
    rewrite Heq. apply list_elem_of_fmap. by exists y.
Qed.

(** Pulls with one and the same score are never out of order for the
    comparator. *)
Lemma compareComplexity_tied (c : option Z) (x y : Pull) :
  complexity x = c -> complexity y = c -> compareComplexity x y <= 0.
Proof.
  intros Hx Hy. unfold compareComplexity, complexity_gt. rewrite Hx, Hy.
  destruct c as [z|]; [|done].
  rewrite Z.ltb_irrefl. done.
Qed.

(** C5: sorting in direction "desc" keeps the pulls and puts those of one
    score in their original order, and when the scores are pairwise
    distinct they come out strictly decreasing; direction "asc" yields the
    exact reverse of the "desc" sequence. *)
Theorem sort_by_complexity_directions (options : gmap string JsValue) (data : list Pull) :
  let desc :=
    sortPullsByComplexity_ (<["direction" := JsString DIRECTION_DESC]> options) data in
  let asc :=
    sortPullsByComplexity_ (<["direction" := JsString DIRECTION_ASC]> options) data in
  asc = rev desc
  /\ desc ≡ₚ data
  /\ (forall c, filter (fun p => complexity p = c) desc
                = filter (fun p => complexity p = c) data)
  /\ (Forall (fun p => is_Some (complexity p)) data ->
      NoDup (complexity <$> data) ->
      StronglySorted outranks desc).
Proof.
  unfold sortPullsByComplexity_, prop. rewrite !lookup_insert_eq. simpl.
  split; [done|]. split; [apply Array_sort_Permutation|]. split.
  - intros c. apply Array_sort_stable. apply compareComplexity_tied.
  - apply Array_sort_outranks.
Qed.

Lemma filter_rev {A} (P : A -> Prop) `{forall x, Decision (P x)} (l : list A) :
  filter P (rev l) = rev (filter P l).
Proof.
  induction l as [|x l IH]; simpl; [done|].
  rewrite filter_app, IH, !filter_cons, filter_nil.
  destruct (decide (P x)); simpl; [done|]. by rewrite app_nil_r.
Qed.

(** Under "asc" the pulls of one score therefore come in the reverse of
    their original order. *)
Lemma sort_ascending_ties_reversed (options : gmap string JsValue) (data : list Pull)
    (c : option Z) :
  filter (fun p => complexity p = c)
    (sortPullsByComplexity_ (<["direction" := JsString DIRECTION_ASC]> options) data)
  = rev (filter (fun p => complexity p = c) data).
Proof.
  unfold sortPullsByComplexity_, prop. rewrite lookup_insert_eq. simpl.
  rewrite filter_rev. f_equal.
  apply Array_sort_stable, compareComplexity_tied.
Qed.

Lemma sort_by_complexity_directions_witness :
  sortPullsByComplexity_ {["direction" := JsString "desc"]}
    [example_pull 1 (Some 10); example_pull 2 (Some 50)]
  = [example_pull 2 (Some 50); example_pull 1 (Some 10)]
  /\ sortPullsByComplexity_ {["direction" := JsString "asc"]}
       [example_pull 1 (Some 10); example_pull 2 (Some 50)]
     = [example_pull 1 (Some 10); example_pull 2 (Some 50)]
  /\ StronglySorted outranks
       (sortPullsByComplexity_
          (<["direction" := JsString DIRECTION_DESC]> ∅)
          [example_pull 1 (Some 10); example_pull 2 (Some 50)]).
Proof.
  split; [reflexivity|]. split; [reflexivity|].
  apply (sort_by_complexity_directions ∅
           [example_pull 1 (Some 10); example_pull 2 (Some 50)]).
  - repeat constructor; by eexists.
  - apply (bool_decide_unpack _). vm_compute. exact I.
Defined.

(** ** Reasoning about computations *)

Ltac unfold_monad :=
  unfold when, request, git, git_getLastCommitSHA, git_countUserAdjacentCommits,
    git_getLastCommitMessage, logger_log, logger_warn, logger_error,
    console_error, openUrl, get_options, opt, set_opt, emit, perform, exit,
    throw, bind, ret in *.

Section FetchFacts.
Context `{Collaborators}.

(** C9: when the retrieval of the pull request fails, [fetch] reports the
    error and has made no version-control call; when it succeeds, the head
    branch is fetched into [pullBranch] and, unless the mode is silent,
    exactly the one command the mode names is applied to [pullBranch]. *)
Theorem fetch_pipeline (opt_type : FetchType) (st : State) :
  let payload :=
    object [("number", prop (options st) "number");
            ("repo", prop (options st) "repo");
            ("user", prop (options st) "user")] in
  let pullBranch := prop (options st) "pullBranch" in
  match pullRequests_get payload (world st) with
  | (Failed err, w) =>
      fetch opt_type st
      = (Done (Some err, None),
         {| options := options st; world := w;
            events := events st ++ [EvApi "pullRequests.get" payload] |})
  | (Ok pull, w) =>
      let fetched :=
        GitFetch (ssh_url (branch_repo (pull_head pull))) (ref (pull_head pull))
          pullBranch in
      let applied :=
        match opt_type with
        | FETCH_TYPE_CHECKOUT => [GitCheckout pullBranch]
        | FETCH_TYPE_MERGE => [GitMerge pullBranch]
        | FETCH_TYPE_REBASE => [GitRebase pullBranch]
        | FETCH_TYPE_SILENT => []
        end in
      fetch opt_type st
      = (Done (None, Some pull),
         {| options := options st;
            world := fold_left (fun w cmd => git_run cmd w) (fetched :: applied) w;
            events := events st ++ EvApi "pullRequests.get" payload
                                   :: EvGit fetched :: map EvGit applied |})
  end.
Proof.
  intros payload pullBranch. unfold fetch, getPullRequest_. unfold_monad.
  simpl. fold payload.
  destruct (pullRequests_get payload (world st)) as [[pull|err] w]; simpl; [|done].
  destruct opt_type; simpl; rewrite <- ?app_assoc; done.
Qed.
End FetchFacts.

(** ** IntegrityReconciler *)

Lemma integrity_scan_last (options : gmap string JsValue) (user : JsValue)
    (originalError : Error) (pulls : list Pull) :
  integrity_scan options user originalError pulls
  = match last (filter (fun data => integrity_match options user data = true) pulls) with
    | Some pull => (None, Some pull)
    | None => (Some originalError, None)
    end.
Proof.
  unfold integrity_scan.
  generalize (Some originalError, @None Pull) as found.
  induction pulls as [|data pulls IH]; intros found; simpl; [done|].
  rewrite IH, filter_cons.
  destruct (integrity_match options user data) eqn:Hm.
  - rewrite decide_True by done. rewrite last_cons.
    by destruct (last _).
  - rewrite decide_False by done. done.
Qed.

Section SubmitFacts.
Context `{Collaborators}.

(** The operations of [submit] leave every option but [title] alone. *)
Lemma submit_operations_options (user : JsValue) (st st1 : State) (r : Outcome (Result Pull)) :
  submit_operations user st = (r, st1) ->
  forall k, k <> "title" -> prop (options st1) k = prop (options st) k.
Proof.
  unfold submit_operations. unfold_monad. simpl.
  destruct (truthy (prop (options st) "title")); simpl.
  - destruct (truthy (prop (options st) "issue")); simpl;
      intros [= <- <-] k Hk; done.
  - destruct (truthy (prop _ "issue")); simpl;
      intros [= <- <-] k Hk; simpl; unfold prop;
      by rewrite lookup_insert_ne.
Qed.

Lemma integrity_match_ext (o o' : gmap string JsValue) (user : JsValue) (data : Pull) :
  (forall k, k <> "title" -> prop o' k = prop o k) ->
  integrity_match o' user data = integrity_match o user data.
Proof.
  intros Hk. unfold integrity_match. by rewrite !Hk.
Qed.

End SubmitFacts.


(** ** Relating the final state to the initial one *)

Section Maintains.
Context `{Collaborators} (R : State -> State -> Prop) `{!PreOrder R}.

Lemma maintains_ret {A} (a : A) : maintains R (ret a).
Proof. intros st. simpl. reflexivity. Qed.

Lemma maintains_exit {A} (status : Z) : maintains R (@exit _ A status).
Proof. intros st. simpl. reflexivity. Qed.

Lemma maintains_throw {A} (exn : string) : maintains R (@throw _ A exn).
Proof. intros st. simpl. reflexivity. Qed.

Lemma maintains_get_options : maintains R get_options.
Proof. intros st. simpl. reflexivity. Qed.

Lemma maintains_opt (k : string) : maintains R (opt k).
Proof. intros st. simpl. reflexivity. Qed.

Lemma maintains_bind {A B} (m : M A) (k : A -> M B) :
  maintains R m -> (forall a, maintains R (k a)) -> maintains R (bind m k).
Proof.
  intros Hm Hk st. unfold bind. specialize (Hm st).
  destruct (m st) as [[a| |] st']; simpl in *; [|done|done].
  etrans; [exact Hm|apply Hk].
Qed.

Lemma maintains_when (b : bool) (m : M unit) :
  maintains R m -> maintains R (when b m).
Proof. destruct b; [done|]. intros _. apply maintains_ret. Qed.

Lemma maintains_forEach {A} (l : list A) (f : A -> M unit) :
  (forall x, maintains R (f x)) -> maintains R (forEach l f).
Proof.
  intros Hf. induction l as [|x l IH]; simpl.
  - apply maintains_ret.
  - apply maintains_bind; [apply Hf|done].
Qed.

Lemma maintains_try_catch {A} (m handler : M A) :
  maintains R m -> maintains R handler -> maintains R (try_catch m handler).
Proof.
  intros Hm Hh st. unfold try_catch. specialize (Hm st).
  destruct (m st) as [[a| |] st']; simpl in *; [done|done|].
  etrans; [exact Hm|apply Hh].
Qed.
End Maintains.

Create HintDb maintains.
#[global] Hint Resolve maintains_ret maintains_exit maintains_throw
  maintains_get_options maintains_opt : maintains.

(** One step through the syntax of a computation. *)
Ltac maintains_step :=
  lazymatch goal with
  | |- maintains _ (bind _ _) =>
      apply maintains_bind; try (solve [apply _]); [|intros ?]
  | |- maintains _ (when _ _) =>
      apply maintains_when; try (solve [apply _])
  | |- maintains _ (forEach _ _) =>
      apply maintains_forEach; try (solve [apply _]); intros ?
  | |- maintains _ (try_catch _ _) =>
      apply maintains_try_catch; try (solve [apply _])
  | |- maintains _ (if ?b then _ else _) => destruct b
  | |- maintains _ (match ?x with _ => _ end) => destruct x
  | |- maintains _ _ => solve [eauto with maintains typeclass_instances]
  end.

Ltac maintains_auto := repeat maintains_step.

#[global] Instance same_options_but_preorder `{Collaborators} (k : string) :
  PreOrder (same_options_but k).
Proof.
  split.
  - by intros st k' Hk.
  - intros st1 st2 st3 H12 H23 k' Hk. by rewrite H23, H12.
Qed.

#[global] Instance same_options_preorder `{Collaborators} :
  PreOrder same_options.
Proof.
  split.
  - by intros st.
  - intros st1 st2 st3 H12 H23. unfold same_options in *. congruence.
Qed.

#[global] Instance appends_preorder `{Collaborators} (P : Event -> Prop) :
  PreOrder (appends P).
Proof.
  split.
  - intros st. exists []. by rewrite app_nil_r.
  - intros st1 st2 st3 (evs & E12 & Hevs) (evs' & E23 & Hevs').
    exists (evs ++ evs'). rewrite E23, E12, app_assoc. split; [done|].
    by apply Forall_app.
Qed.

Section Frames.
Context `{Collaborators}.

(** What the primitive calls change. *)
Lemma emit_same_options (e : Event) : maintains same_options (emit e).
Proof. by intros st. Qed.

Lemma perform_same_options {A} (f : World -> A * World) :
  maintains same_options (perform f).
Proof. by intros st. Qed.

Lemma emit_same_options_but (k : string) (e : Event) :
  maintains (same_options_but k) (emit e).
Proof. by intros st k' Hk. Qed.

Lemma perform_same_options_but {A} (k : string) (f : World -> A * World) :
  maintains (same_options_but k) (perform f).
Proof. by intros st k' Hk. Qed.

Lemma set_opt_same_options_but (k : string) (v : JsValue) :
  maintains (same_options_but k) (set_opt k v).
Proof. intros st k' Hk. simpl. by rewrite lookup_insert_ne. Qed.

Lemma emit_appends (P : Event -> Prop) (e : Event) :
  P e -> maintains (appends P) (emit e).
Proof. intros He st. exists [e]. split; [done|]. by constructor. Qed.

Lemma perform_appends {A} (P : Event -> Prop) (f : World -> A * World) :
  maintains (appends P) (perform f).
Proof. intros st. exists []. simpl. by rewrite app_nil_r. Qed.

Lemma set_opt_appends (P : Event -> Prop) (k : string) (v : JsValue) :
  maintains (appends P) (set_opt k v).
Proof. intros st. exists []. simpl. by rewrite app_nil_r. Qed.
End Frames.

#[global] Hint Resolve emit_same_options perform_same_options
  emit_same_options_but perform_same_options_but set_opt_same_options_but
  emit_appends perform_appends set_opt_appends : maintains.
#[global] Hint Unfold request git git_getLastCommitSHA git_countUserAdjacentCommits
  git_getLastCommitMessage logger_log logger_warn logger_error console_error
  openUrl : maintains.

Ltac unfold_calls :=
  unfold request, git, git_getLastCommitSHA, git_countUserAdjacentCommits,
    git_getLastCommitMessage, logger_log, logger_warn, logger_error,
    console_error, openUrl.

Ltac maintains_calls := unfold_calls; maintains_auto.

Section ListingFrames.
Context `{Collaborators}.

Lemma maintains_weaken (R R' : State -> State -> Prop) {A} (m : M A) :
  (forall st st', R st st' -> R' st st') -> maintains R m -> maintains R' m.
Proof. intros HR Hm st. apply HR, Hm. Qed.

Lemma same_options_weaken (k : string) {A} (m : M A) :
  maintains same_options m -> maintains (same_options_but k) m.
Proof.
  apply maintains_weaken. intros st st' Heq k' _. by rewrite Heq.
Qed.

Lemma getPullRequest__same_options : maintains same_options getPullRequest_.
Proof. unfold getPullRequest_. maintains_calls. Qed.

Lemma addComplexityParamToPulls__frame (pulls : list Pull) :
  maintains (same_options_but "number") (addComplexityParamToPulls_ pulls).
Proof.
  induction pulls as [|pull rest IH]; simpl; [maintains_calls|].
  maintains_step; [maintains_calls|].
  maintains_step; [apply same_options_weaken, getPullRequest__same_options|].
  maintains_calls.
Qed.

Lemma addCombinedStatus_same_options (user repo : JsValue) (pulls : list Pull) :
  maintains same_options (addCombinedStatus user repo pulls).
Proof.
  induction pulls as [|pull rest IH]; simpl; maintains_calls.
Qed.

Lemma printPullInfo__same_options (pull : Pull) :
  maintains same_options (printPullInfo_ pull).
Proof. unfold printPullInfo_. maintains_calls. Qed.

Lemma list_operations_frame (user repo : JsValue) (payload : Payload) :
  maintains (same_options_but "number") (list_operations user repo payload).
Proof.
  pose proof addComplexityParamToPulls__frame.
  pose proof (fun pulls =>
    same_options_weaken "number" _ (addCombinedStatus_same_options user repo pulls)).
  unfold list_operations. maintains_calls.
Qed.

Lemma list_report_same_options (user repo : JsValue) (pulls : list Pull) :
  maintains same_options (list_report user repo pulls).
Proof.
  pose proof printPullInfo__same_options.
  unfold list_report. maintains_calls.
Qed.

Lemma list__frame (user repo : JsValue) :
  maintains (same_options_but "number") (list_ user repo).
Proof.
  pose proof (list_operations_frame user repo).
  pose proof (fun pulls =>
    same_options_weaken "number" _ (list_report_same_options user repo pulls)).
  unfold list_. maintains_calls.
Qed.
End ListingFrames.

(** ** The shared [options.number] under a complexity sort *)

Section NumberOverwrite.
Context `{Collaborators}.

(** When every detail request succeeds, [options.number] ends as the number
    of the last pull of the series. *)
Lemma addComplexityParamToPulls__number (pulls : list Pull) :
  forall st scored st',
    addComplexityParamToPulls_ pulls st = (Done (None, scored), st') ->
    options st'
    = match last pulls with
      | Some pull => <["number" := JsNumber (pull_number pull)]> (options st)
      | None => options st
      end.
Proof.
  induction pulls as [|pull rest IH]; intros st scored st' Hrun.
  - simpl in Hrun. by injection Hrun as _ <-.
  - simpl in Hrun. unfold bind at 1 in Hrun. simpl in Hrun.
    unfold bind at 1 in Hrun.
    match type of Hrun with
    | context [getPullRequest_ ?s] => set (st1 := s) in *
    end.
    pose proof (getPullRequest__same_options st1) as Hopts.
    destruct (getPullRequest_ st1) as [[[pull2|err]| |] st2]; simpl in *; try done.
    unfold bind at 1 in Hrun.
    destruct (addComplexityParamToPulls_ rest st2)
      as [[[err results]| |] st3] eqn:Hrest; simpl in Hrun; try done.
    injection Hrun as -> _ <-.
    apply IH in Hrest. rewrite Hrest, last_cons, Hopts.
    destruct (last rest); [|done].
    subst st1. simpl. by rewrite insert_insert_eq.
Qed.

(** When every detail request succeeds, every pull comes back scored, in
    the order it went in. *)
Lemma addComplexityParamToPulls__scored (pulls : list Pull) :
  forall st scored st',
    addComplexityParamToPulls_ pulls st = (Done (None, scored), st') ->
    Forall (fun pull => is_Some (complexity pull)) scored
    /\ pull_number <$> scored = pull_number <$> pulls.
Proof.
  induction pulls as [|pull rest IH]; intros st scored st' Hrun.
  - simpl in Hrun. injection Hrun as <- _. by split.
  - simpl in Hrun. unfold bind at 1 in Hrun. simpl in Hrun.
    unfold bind at 1 in Hrun.
    destruct (getPullRequest_ _) as [[[pull2|err]| |] st2]; simpl in *; try done.
    unfold bind at 1 in Hrun.
    destruct (addComplexityParamToPulls_ rest st2)
      as [[[err results]| |] st3] eqn:Hrest; simpl in Hrun; try done.
    injection Hrun as -> <- _.
    destruct (IH _ _ _ Hrest) as [Hsome Hnumbers]. split.
    + constructor; [by eexists|done].
    + rewrite !fmap_cons. by rewrite Hnumbers.
Qed.

(** What the operations of [list] hand on when the sort is by complexity
    and nothing fails: the scored pulls, sorted, with their statuses. *)
Lemma list_operations_complexity (user repo : JsValue) (payload : Payload)
    (st st' : State) (data listed : list Pull) (w : World) :
  prop (options st) "sort" = JsString SORT_COMPLEXITY ->
  pullRequests_getAll payload (world st) = (Ok data, w) ->
  list_operations user repo payload st = (Done (None, listed), st') ->
  let pulls :=
    if truthy (prop (options st) "me")
    then filterPullsSentByMe_ (options st) data else data in
  exists scored st2,
    addComplexityParamToPulls_ pulls
      {| options := options st; world := w;
         events := events st ++ [EvApi "pullRequests.getAll" payload] |}
    = (Done (None, scored), st2)
    /\ addCombinedStatus user repo
         (sortPullsByComplexity_ (options st2) scored) st2
       = (Done listed, st').
Proof.
  intros Hsort Hget Hrun pulls. unfold list_operations in Hrun.
  unfold_monad. simpl in Hrun. rewrite Hget in Hrun.
  simpl in Hrun. rewrite Hsort in Hrun. simpl in Hrun. fold pulls in Hrun.
  match type of Hrun with
  | context [addComplexityParamToPulls_ _ ?s] => set (st1 := s) in *
  end.
  destruct (addComplexityParamToPulls_ pulls st1)
    as [[[[err|] scored]| |] st2] eqn:Hscore; simpl in Hrun; try done.
  exists scored, st2. split; [done|].
  destruct (addCombinedStatus _ _ _ st2) as [[with_status| |] st3];
    simpl in *; try done.
  by injection Hrun as -> ->.
Qed.

(** C10: the detail requests of a complexity sort change [options.number]
    and no other property of [options]; when the listing completes,
    [options.number] is the number of the last pull the remote listing
    returned (after the filter on the author), whatever it was before. *)
Theorem complexity_refetch_overwrites_number (user repo : JsValue) (st : State) :
  (forall pulls k, k <> "number" ->
     options (addComplexityParamToPulls_ pulls st).2 !! k = options st !! k)
  /\ (forall pulls scored st',
        addComplexityParamToPulls_ pulls st = (Done (None, scored), st') ->
        options st'
        = match last pulls with
          | Some pull => <["number" := JsNumber (pull_number pull)]> (options st)
          | None => options st
          end)
  /\ (forall k, k <> "number" ->
        options (list_ user repo st).2 !! k = options st !! k)
  /\ (forall data w st',
        prop (options st) "sort" = JsString SORT_COMPLEXITY ->
        pullRequests_getAll (list_payload (options st) user repo) (world st)
        = (Ok data, w) ->
        list_ user repo st = (Done None, st') ->
        options st'
        = match last (if truthy (prop (options st) "me")
                      then filterPullsSentByMe_ (options st) data else data) with
          | Some pull => <["number" := JsNumber (pull_number pull)]> (options st)
          | None => options st
          end).
Proof.
  split; [intros pulls; apply addComplexityParamToPulls__frame|].
  split; [intros pulls scored st'; apply addComplexityParamToPulls__number|].
  split; [apply list__frame|].
  intros data w st' Hsort Hget Hrun.
  unfold list_ in Hrun. unfold bind at 1, get_options in Hrun.
  unfold bind at 1 in Hrun.
  destruct (list_operations _ _ _ st) as [[[[err|] listed]| |] st1] eqn:Hops;
    simpl in Hrun; try done.
  destruct (list_operations_complexity _ _ _ _ _ _ _ _ Hsort Hget Hops)
    as (scored & st2 & Hscore & Hstatus).
  apply addComplexityParamToPulls__number in Hscore. simpl in Hscore.
  pose proof (addCombinedStatus_same_options user repo
                (sortPullsByComplexity_ (options st2) scored) st2) as Hsame.
  rewrite Hstatus in Hsame. simpl in Hsame.
  pose proof (list_report_same_options user repo listed st1) as Hreport.
  unfold bind at 1 in Hrun.
  destruct (list_report user repo listed st1) as [[[]| |] st3];
    simpl in *; try done.
  injection Hrun as <-. by rewrite Hreport, Hsame, Hscore.
Qed.
End NumberOverwrite.

Lemma complexity_refetch_overwrites_number_witness :
  let st :=
    mock_state (Ok (example_pull 9 None))
      (Ok [example_pull 1 None; example_pull 2 None])
      (Failed (example_error 422)) (Ok []) example_listing_options in
  prop (options st) "number" = JsString "5"
  /\ prop (options (list_ (JsString "node-gh") (JsString "gh") st).2) "number"
     = JsNumber 2.
Proof.
  intros st. split; [reflexivity|].
  destruct (complexity_refetch_overwrites_number
              (JsString "node-gh") (JsString "gh") st) as (_ & _ & _ & Hlist).
  assert (Hrun : list_ (JsString "node-gh") (JsString "gh") st
                 = (Done None, (list_ (JsString "node-gh") (JsString "gh") st).2))
    by (vm_compute; reflexivity).
  rewrite (Hlist [example_pull 1 None; example_pull 2 None] tt _
             eq_refl eq_refl Hrun).
  reflexivity.
Defined.

(** ** PullRequestLister *)

Section ListingFacts.
Context `{Collaborators}.

Lemma bind_assoc {A B C} (m : M A) (f : A -> M B) (g : B -> M C) (st : State) :
  bind (bind m f) g st = bind m (fun a => bind (f a) g) st.
Proof. unfold bind. by destruct (m st) as [[a| |] st']. Qed.

Lemma forEach_app {A} (l1 l2 : list A) (f : A -> M unit) (st : State) :
  forEach (l1 ++ l2) f st = (forEach l1 f >> forEach l2 f) st.
Proof.
  revert st. induction l1 as [|x l1 IH]; intros st; simpl; [done|].
  unfold bind. destruct (f x st) as [[[]| |] st']; [|done|done].
  rewrite IH. done.
Qed.

Lemma sortPullsByComplexity__nil (o : gmap string JsValue) :
  sortPullsByComplexity_ o [] = [].
Proof. unfold sortPullsByComplexity_. simpl. by destruct (strict_eq _ _). Qed.

Lemma list_payload_repo (o : gmap string JsValue) (user repo : JsValue) :
  prop (list_payload o user repo) "repo" = repo.
Proof. done. Qed.

Lemma list_payload_sort (o : gmap string JsValue) (user repo : JsValue) :
  prop (list_payload o user repo) "sort"
  = if strict_eq (prop o "sort") (JsString SORT_COMPLEXITY)
    then JsString SORT_CREATED else prop o "sort".
Proof. done. Qed.

Lemma list__not_found (user repo : JsValue) (st : State) (err : Error) (w : World) :
  pullRequests_getAll (list_payload (options st) user repo) (world st)
  = (Failed err, w) ->
  code err = 404 ->
  list_ user repo st
  = (Done None,
     {| options := options st; world := w;
        events := events st
                  ++ [EvApi "pullRequests.getAll"
                        (list_payload (options st) user repo);
                      EvWarn ("Can't list pull requests for " +:+ ToString user +:+
                              "/" +:+ ToString repo)] |}).
Proof.
  intros Hget Hcode. unfold list_, list_operations, list_report.
  unfold_monad. simpl. rewrite Hget. simpl. rewrite Hcode. simpl.
  rewrite list_payload_repo.
  destruct (truthy _ && strict_eq _ _); simpl;
    rewrite ?sortPullsByComplexity__nil; simpl; by rewrite <- app_assoc.
Qed.


(** The calls of a listing after its one listing request. *)
Lemma appends_after_emit (P : Event -> Prop) {A} (e : Event) (k : unit -> M A) :
  (forall u, maintains (appends P) (k u)) ->
  forall st, exists rest,
    events (bind (emit e) k st).2 = events st ++ e :: rest /\ Forall P rest.
Proof.
  intros Hk st. unfold bind, emit.
  destruct (Hk tt {| options := options st; world := world st;
                     events := events st ++ [e] |}) as (rest & Hev & Hrest).
  exists rest. split; [|done]. simpl in Hev. by rewrite Hev, <- app_assoc.
Qed.

Lemma other_request_log (line : string) : other_request (EvLog line).
Proof. split; simpl; tauto. Qed.

Lemma other_request_warn (line : string) : other_request (EvWarn line).
Proof. split; simpl; tauto. Qed.

Lemma other_request_get (payload : Payload) :
  prop payload "sort" = JsUndefined ->
  other_request (EvApi "pullRequests.get" payload).
Proof. intros Hs. split; simpl; [tauto|]. by rewrite Hs. Qed.

Lemma other_request_status (payload : Payload) :
  prop payload "sort" = JsUndefined ->
  other_request (EvApi "statuses.getCombined" payload).
Proof. intros Hs. split; simpl; [tauto|]. by rewrite Hs. Qed.
End ListingFacts.

#[global] Hint Resolve other_request_log other_request_warn other_request_get
  other_request_status : maintains.
#[global] Hint Extern 1 (prop _ _ = JsUndefined) => reflexivity : maintains.

Section ListingTrace.
Context `{Collaborators}.

Lemma getPullRequest__other : maintains (appends other_request) getPullRequest_.
Proof. unfold getPullRequest_. maintains_calls. Qed.

Lemma addComplexityParamToPulls__other (pulls : list Pull) :
  maintains (appends other_request) (addComplexityParamToPulls_ pulls).
Proof.
  pose proof getPullRequest__other.
  induction pulls as [|pull rest IH]; simpl; maintains_calls.
Qed.

Lemma addCombinedStatus_other (user repo : JsValue) (pulls : list Pull) :
  maintains (appends other_request) (addCombinedStatus user repo pulls).
Proof. induction pulls as [|pull rest IH]; simpl; maintains_calls. Qed.

Lemma printPullInfo__other (pull : Pull) :
  maintains (appends other_request) (printPullInfo_ pull).
Proof. unfold printPullInfo_. maintains_calls. Qed.

Lemma list_report_other (user repo : JsValue) (pulls : list Pull) :
  maintains (appends other_request) (list_report user repo pulls).
Proof. pose proof printPullInfo__other. unfold list_report. maintains_calls. Qed.

Lemma list__single_request (user repo : JsValue) (st : State) :
  exists rest,
    events (list_ user repo st).2
    = events st ++ EvApi "pullRequests.getAll" (list_payload (options st) user repo)
                   :: rest
    /\ Forall other_request rest.
Proof.
  unfold list_. unfold bind at 1, get_options.
  unfold list_operations, request. rewrite !bind_assoc.
  apply appends_after_emit. intros _.
  pose proof addComplexityParamToPulls__other.
  pose proof addCombinedStatus_other.
  pose proof list_report_other.
  maintains_calls.
Qed.

End ListingTrace.



(** ** WorkflowOrchestrator *)

Lemma prop_insert_eq (o : gmap string JsValue) (k : string) (v : JsValue) :
  prop (<[k := v]> o) k = v.
Proof. unfold prop. by rewrite lookup_insert_eq. Qed.

Lemma prop_insert_ne (o : gmap string JsValue) (k k' : string) (v : JsValue) :
  k <> k' -> prop (<[k := v]> o) k' = prop o k'.
Proof. intros Hk. unfold prop. by rewrite lookup_insert_ne. Qed.

Section RunFacts.
Context `{Extensions}.

End RunFacts.


(** The guard of [run] names the flags close, fetch and merge; a run asked
    to rebase alone reaches the merge handler with no pull branch. *)
Example run_rebase_alone_is_dispatched :
  (@run _ (mock_extensions (Failed (example_error 404)) (Ok [])
             (Failed (example_error 422)) (Ok []))
     (mock_state (Failed (example_error 404)) (Ok [])
        (Failed (example_error 422)) (Ok []) example_rebase_options)).1
  = Done tt
  /\ In (EvGit (GitRebase JsUndefined))
       (events
          (@run _ (mock_extensions (Failed (example_error 404)) (Ok [])
                     (Failed (example_error 422)) (Ok []))
             (mock_state (Failed (example_error 404)) (Ok [])
                (Failed (example_error 422)) (Ok []) example_rebase_options)).2).
Proof.
  split; [reflexivity|].
  vm_compute. repeat (first [left; reflexivity | right]).
Qed.

(** On branch [pr-42] with prefix [pr-] the resolved number is [42] and the
    pull branch [pr-42]. *)
Example run_resolves_from_branch :
  let st' :=
    (@run _ (mock_extensions (Failed (example_error 404)) (Ok [])
               (Failed (example_error 422)) (Ok []))
       (mock_state (Failed (example_error 404)) (Ok [])
          (Failed (example_error 422)) (Ok []) example_branch_options)).2 in
  prop (options st') "number" = JsString "42"
  /\ prop (options st') "pullBranch" = JsString "pr-42"
  /\ events st' = [].
Proof. repeat split; reflexivity. Qed.

(** Two pulls of one score: "desc" keeps them as they came, "asc" turns
    them around. *)
Example sort_ties_both_directions :
  sortPullsByComplexity_ {["direction" := JsString "desc"]}
    [example_pull 1 (Some 5); example_pull 2 (Some 5)]
  = [example_pull 1 (Some 5); example_pull 2 (Some 5)]
  /\ sortPullsByComplexity_ {["direction" := JsString "asc"]}
       [example_pull 1 (Some 5); example_pull 2 (Some 5)]
     = [example_pull 2 (Some 5); example_pull 1 (Some 5)].
Proof. split; reflexivity. Qed.

(** * Further properties *)

(** ** How computations end *)

Section EndingFacts.
Context `{Collaborators} (E : Ending -> Prop).

Lemma ends_within_bind {A B} (m : M A) (k : A -> M B) :
  ends_within E m -> (forall a, ends_within E (k a)) -> ends_within E (bind m k).
Proof.
  intros Hm Hk st. unfold bind. specialize (Hm st).
  destruct (m st) as [[a| |] st']; simpl in *; [apply Hk|done|done].
Qed.

Hypothesis returning : E Returned.

Lemma ends_within_ret {A} (a : A) : ends_within E (ret a).
Proof. by intros st. Qed.

Lemma ends_within_get_options : ends_within E get_options.
Proof. by intros st. Qed.

Lemma ends_within_opt (k : string) : ends_within E (opt k).
Proof. by intros st. Qed.

Lemma ends_within_set_opt (k : string) (v : JsValue) : ends_within E (set_opt k v).
Proof. by intros st. Qed.

Lemma ends_within_emit (e : Event) : ends_within E (emit e).
Proof. by intros st. Qed.

Lemma ends_within_perform {A} (f : World -> A * World) : ends_within E (perform f).
Proof. by intros st. Qed.

Lemma ends_within_when (b : bool) (m : M unit) :
  ends_within E m -> ends_within E (when b m).
Proof. destruct b; [done|]. intros _. apply ends_within_ret. Qed.

Lemma ends_within_forEach {A} (l : list A) (f : A -> M unit) :
  (forall x, ends_within E (f x)) -> ends_within E (forEach l f).
Proof.
  intros Hf. induction l as [|x l IH]; simpl.
  - apply ends_within_ret.
  - by apply ends_within_bind.
Qed.
End EndingFacts.

Lemma ends_within_throw `{Collaborators} (E : Ending -> Prop) {A} (exn : string) :
  E Thrown -> ends_within E (@throw _ A exn).
Proof. by intros HE st. Qed.

Create HintDb endings.
#[global] Hint Resolve ends_within_ret ends_within_get_options ends_within_opt
  ends_within_set_opt ends_within_emit ends_within_perform ends_within_throw
  : endings.
#[global] Hint Extern 1 (_ <> _) => discriminate : endings.
#[global] Hint Extern 1 (_ = _) => reflexivity : endings.

Ltac ends_step :=
  lazymatch goal with
  | |- ends_within _ (bind _ _) => apply ends_within_bind; [|intros ?]
  | |- ends_within _ (when _ _) => apply ends_within_when; [eauto with endings|]
  | |- ends_within _ (forEach _ _) =>
      apply ends_within_forEach; [eauto with endings|intros ?]
  | |- ends_within _ (if ?b then _ else _) => destruct b
  | |- ends_within _ (match ?x with _ => _ end) => destruct x
  | |- ends_within _ _ => solve [eauto with endings]
  end.

Ltac ends_calls := unfold_calls; repeat ends_step.

(** ** What a listing never does *)

Section ReadOnly.
Context `{Collaborators}.

Lemma read_only_request (method : string) (payload : Payload) :
  method <> "pullRequests.create" ->
  method <> "pullRequests.createFromIssue" ->
  method <> "pullRequests.update" ->
  read_only (EvApi method payload).
Proof. intros H1 H2 H3. simpl. intuition. Qed.

Lemma read_only_log (line : string) : read_only (EvLog line).
Proof. done. Qed.

Lemma read_only_warn (line : string) : read_only (EvWarn line).
Proof. done. Qed.
End ReadOnly.

#[global] Hint Resolve read_only_log read_only_warn : maintains.
#[global] Hint Extern 1 (read_only (EvApi _ _)) =>
  apply read_only_request; discriminate : maintains.

Section ListingNever.
Context `{Collaborators}.

Lemma getPullRequest__read_only : maintains (appends read_only) getPullRequest_.
Proof. unfold getPullRequest_. maintains_calls. Qed.

Lemma addComplexityParamToPulls__read_only (pulls : list Pull) :
  maintains (appends read_only) (addComplexityParamToPulls_ pulls).
Proof.
  pose proof getPullRequest__read_only.
  induction pulls as [|pull rest IH]; simpl; maintains_calls.
Qed.

Lemma addCombinedStatus_read_only (user repo : JsValue) (pulls : list Pull) :
  maintains (appends read_only) (addCombinedStatus user repo pulls).
Proof. induction pulls as [|pull rest IH]; simpl; maintains_calls. Qed.

Lemma printPullInfo__read_only (pull : Pull) :
  maintains (appends read_only) (printPullInfo_ pull).
Proof. unfold printPullInfo_. maintains_calls. Qed.

Lemma list_report_read_only (user repo : JsValue) (pulls : list Pull) :
  maintains (appends read_only) (list_report user repo pulls).
Proof. pose proof printPullInfo__read_only. unfold list_report. maintains_calls. Qed.

Lemma list__read_only (user repo : JsValue) :
  maintains (appends read_only) (list_ user repo).
Proof.
  pose proof addComplexityParamToPulls__read_only.
  pose proof addCombinedStatus_read_only.
  pose proof list_report_read_only.
  unfold list_, list_operations. maintains_calls.
Qed.

Lemma getPullRequest__returns : ends_within (eq Returned) getPullRequest_.
Proof. unfold getPullRequest_. ends_calls. Qed.

Lemma addComplexityParamToPulls__returns (pulls : list Pull) :
  ends_within (eq Returned) (addComplexityParamToPulls_ pulls).
Proof.
  pose proof getPullRequest__returns.
  induction pulls as [|pull rest IH]; simpl; ends_calls.
Qed.

Lemma addCombinedStatus_never_exits (user repo : JsValue) (pulls : list Pull) :
  ends_within (fun e => e <> Exited) (addCombinedStatus user repo pulls).
Proof. induction pulls as [|pull rest IH]; simpl; ends_calls. Qed.

Lemma printPullInfo__returns (pull : Pull) :
  ends_within (eq Returned) (printPullInfo_ pull).
Proof. unfold printPullInfo_. ends_calls. Qed.

Lemma ends_within_weaken (E E' : Ending -> Prop) {A} (m : M A) :
  (forall e, E e -> E' e) -> ends_within E m -> ends_within E' m.
Proof. intros HE Hm st. apply HE, Hm. Qed.

Lemma list_report_returns (user repo : JsValue) (pulls : list Pull) :
  ends_within (eq Returned) (list_report user repo pulls).
Proof. pose proof printPullInfo__returns. unfold list_report. ends_calls. Qed.

Lemma list__never_exits (user repo : JsValue) :
  ends_within (fun e => e <> Exited) (list_ user repo).
Proof.
  assert (Hweak : forall e, Returned = e -> e <> Exited) by (by intros ? <-).
  pose proof (fun pulls : list Pull =>
    ends_within_weaken _ _ _ Hweak (addComplexityParamToPulls__returns pulls)).
  pose proof addCombinedStatus_never_exits.
  pose proof (fun pulls : list Pull =>
    ends_within_weaken _ _ _ Hweak (list_report_returns user repo pulls)).
  unfold list_, list_operations. ends_calls.
Qed.

End ListingNever.

(** ** Closing and reopening *)

Section CloseOpen.
Context `{Collaborators}.

(** X2: [close] touches the working tree only after the pull request was
    retrieved and closed remotely: a failed retrieval sends no update, a
    failed update leaves the branches alone; after a successful update the
    base branch is checked out exactly when the pull branch is the current
    one, and the pull branch is deleted exactly when one was resolved. *)
Theorem close_pipeline (st : State) :
  let o := options st in
  let payload :=
    object [("number", prop o "number"); ("repo", prop o "repo");
            ("user", prop o "user")] in
  match pullRequests_get payload (world st) with
  | (Failed err, w) =>
      close st
      = (Done (Some err, None),
         {| options := o; world := w;
            events := events st ++ [EvApi "pullRequests.get" payload] |})
  | (Ok pull, w) =>
      let body :=
        if truthy (of_option_string (pull_body pull))
        then JsString (logger_applyReplacements
                         (ToString (of_option_string (pull_body pull))))
        else of_option_string (pull_body pull) in
      let update :=
        object [("body", body); ("number", prop o "number");
                ("repo", prop o "repo"); ("state", JsString STATE_CLOSED);
                ("title", JsString (pull_title pull)); ("user", prop o "user")] in
      let requested :=
        [EvApi "pullRequests.get" payload; EvApi "pullRequests.update" update] in
      match pullRequests_update update w with
      | (Failed err, w') =>
          close st
          = (Done (Some err, Some pull),
             {| options := o; world := w'; events := events st ++ requested |})
      | (Ok _, w') =>
          let commands :=
            (if strict_eq (prop o "pullBranch") (prop o "currentBranch")
             then [GitCheckout (JsString (ref (pull_base pull)))] else [])
            ++ (if truthy (prop o "pullBranch")
                then [GitDeleteBranch (prop o "pullBranch")] else []) in
          close st
          = (Done (None, Some pull),
             {| options := o;
                world := fold_left (fun w cmd => git_run cmd w) commands w';
                events := events st ++ requested ++ map EvGit commands |})
      end
  end.
Proof.
  intros o payload. unfold close, getPullRequest_, updatePullRequest_.
  unfold_monad. simpl. fold o. fold payload.
  destruct (pullRequests_get payload (world st)) as [[pull|err] w]; simpl; [|done].
  destruct (pullRequests_update _ w) as [[updated|err] w']; simpl.
  - destruct (strict_eq _ _), (truthy (prop o "pullBranch")); simpl;
      rewrite <- ?app_assoc; done.
  - by rewrite <- app_assoc.
Qed.

(** X3: [open] sends the update only when the retrieval succeeded, with
    the state "open" and the title and body it retrieved (the body after the
    configured replacements, when there is one); it hands on the answer of
    the update and runs no version-control command. *)
Theorem open_pipeline (st : State) :
  let o := options st in
  let payload :=
    object [("number", prop o "number"); ("repo", prop o "repo");
            ("user", prop o "user")] in
  match pullRequests_get payload (world st) with
  | (Failed err, w) =>
      open st
      = (Done (Some err, None),
         {| options := o; world := w;
            events := events st ++ [EvApi "pullRequests.get" payload] |})
  | (Ok pull, w) =>
      let body :=
        if truthy (of_option_string (pull_body pull))
        then JsString (logger_applyReplacements
                         (ToString (of_option_string (pull_body pull))))
        else of_option_string (pull_body pull) in
      let update :=
        object [("body", body); ("number", prop o "number");
                ("repo", prop o "repo"); ("state", JsString STATE_OPEN);
                ("title", JsString (pull_title pull)); ("user", prop o "user")] in
      open st
      = (Done (match (pullRequests_update update w).1 with
               | Ok data => (None, Some data)
               | Failed err => (Some err, None)
               end),
         {| options := o; world := (pullRequests_update update w).2;
            events := events st ++ [EvApi "pullRequests.get" payload;
                                    EvApi "pullRequests.update" update] |})
  end.
Proof.
  intros o payload. unfold open, getPullRequest_, updatePullRequest_.
  unfold_monad. simpl. fold o. fold payload.
  destruct (pullRequests_get payload (world st)) as [[pull|err] w]; simpl; [|done].
  destruct (pullRequests_update _ w) as [[updated|err] w']; simpl;
    by rewrite <- app_assoc.
Qed.
End CloseOpen.

(** ** Submitting and forwarding *)

Section SubmitMore.
Context `{Collaborators}.


(** X4: [submit] first pushes [pullBranch || currentBranch]; it reads the
    last commit message of that branch, and stores it as [options.title],
    only when no title is set; with an issue number it converts the issue
    and sends neither title nor body, otherwise it creates the pull request
    with [options.title] and [options.description]. *)
Theorem submit_request (user : JsValue) (st : State) :
  let o := options st in
  let pullBranch := logical_or (prop o "pullBranch") (prop o "currentBranch") in
  let push := GitPush (default_remote config) pullBranch in
  let pushed := git_run push (world st) in
  let titled : State :=
    if truthy (prop o "title")
    then {| options := o; world := pushed; events := events st ++ [EvGit push] |}
    else {| options :=
              <["title" := JsString (git_lastCommitMessage pullBranch pushed)]> o;
            world := git_run (GitGetLastCommitMessage pullBranch) pushed;
            events := events st ++ [EvGit push;
                                    EvGit (GitGetLastCommitMessage pullBranch)] |} in
  let payload :=
    object [("base", prop o "branch");
            ("head", JsString (ToString (prop o "user") +:+ ":" +:+
                               ToString pullBranch));
            ("repo", prop o "repo"); ("user", user)] in
  submit_operations user st
  = if truthy (prop o "issue")
    then request "pullRequests.createFromIssue" pullRequests_createFromIssue
           (<["issue" := prop o "issue"]> payload) titled
    else request "pullRequests.create" pullRequests_create
           (<["title" := prop (options titled) "title"]>
              (<["body" := prop o "description"]> payload)) titled.
Proof.
  intros o pullBranch push pushed titled payload.
  unfold submit_operations. unfold_monad. simpl.
  fold o. fold pullBranch. fold push. fold pushed.
  subst titled. destruct (truthy (prop o "title")); simpl.
  - fold payload. by destruct (truthy (prop o "issue")).
  - rewrite (prop_insert_ne _ "title" "branch"), (prop_insert_ne _ "title" "user"),
      (prop_insert_ne _ "title" "repo"), (prop_insert_ne _ "title" "issue"),
      (prop_insert_ne _ "title" "description") by done.
    fold payload.
    destruct (truthy (prop o "issue")); simpl; rewrite <- ?app_assoc; simpl; done.
Qed.
End SubmitMore.

Ltac simpl_prop :=
  repeat first [rewrite prop_insert_eq | rewrite prop_insert_ne by done].

Section ForwardFacts.
Context `{Collaborators}.

Lemma not_switching_request (method : string) (payload : Payload) :
  ~ switches_branch (EvApi method payload).
Proof. simpl. tauto. Qed.

Lemma fetch_silent_keeps_branch :
  maintains (appends (fun e => ~ switches_branch e)) (fetch FETCH_TYPE_SILENT).
Proof.
  pose proof not_switching_request.
  unfold fetch, getPullRequest_. simpl. unfold_calls.
  repeat maintains_step; apply emit_appends; simpl; tauto.
Qed.

Lemma submit_keeps_branch (user : JsValue) :
  maintains (appends (fun e => ~ switches_branch e)) (submit user).
Proof.
  pose proof not_switching_request.
  unfold submit, submit_operations, checkPullRequestIntegrity_. unfold_calls.
  repeat maintains_step; apply emit_appends; simpl; tauto.
Qed.

Lemma forward_keeps_branch :
  maintains (appends (fun e => ~ switches_branch e)) forward.
Proof.
  pose proof fetch_silent_keeps_branch. pose proof submit_keeps_branch.
  unfold forward. maintains_calls.
Qed.

(** The calls of a submit whose title is set and which converts no issue:
    the push, the create request and, when that fails, the listing of the
    reconciler. *)
Lemma submit_events (user : JsValue) (st : State) :
  truthy (prop (options st) "title") = true ->
  truthy (prop (options st) "issue") = false ->
  let o := options st in
  let pullBranch := logical_or (prop o "pullBranch") (prop o "currentBranch") in
  let created :=
    <["title" := prop o "title"]>
      (<["body" := prop o "description"]>
         (object [("base", prop o "branch");
                  ("head", JsString (ToString (prop o "user") +:+ ":" +:+
                                     ToString pullBranch));
                  ("repo", prop o "repo"); ("user", user)])) in
  exists rest,
    events (submit user st).2
    = events st ++ [EvGit (GitPush (default_remote config) pullBranch);
                    EvApi "pullRequests.create" created] ++ rest
    /\ (rest = [] \/ exists listing, rest = [EvApi "pullRequests.getAll" listing]).
Proof.
  intros Htitle Hissue o pullBranch created.
  unfold submit, submit_operations, checkPullRequestIntegrity_.
  unfold_monad. simpl. rewrite Htitle. simpl.
  rewrite Hissue. simpl. fold o. fold pullBranch. fold created.
  destruct (pullRequests_create created _) as [[data|err] w]; simpl.
  - exists []. split; [|by left]. by rewrite <- app_assoc.
  - destruct (pullRequests_getAll _ w) as [[pulls|err'] w']; simpl;
      (eexists [_]; split; [by rewrite <- !app_assoc|right; by eexists]).
Qed.

End ForwardFacts.

(** ** Filtering and grouping the listed pulls *)

(** X6: the filter of [--me] keeps exactly the pulls whose author is the
    logged user, in their order; filtering again changes nothing; and when
    the logged user is not a string, nothing is kept. *)
Theorem filterPullsSentByMe__keeps_mine (options : gmap string JsValue)
    (pulls : list Pull) :
  (forall pull,
     pull ∈ filterPullsSentByMe_ options pulls
     <-> pull ∈ pulls
         /\ prop options "loggedUser" = JsString (login (pull_user pull)))
  /\ sublist (filterPullsSentByMe_ options pulls) pulls
  /\ filterPullsSentByMe_ options (filterPullsSentByMe_ options pulls)
     = filterPullsSentByMe_ options pulls
  /\ ((forall name, prop options "loggedUser" <> JsString name) ->
      filterPullsSentByMe_ options pulls = []).
Proof.
  unfold filterPullsSentByMe_, strict_eq.
  split; [|split; [|split]].
  - intros pull. rewrite list_elem_of_filter, bool_decide_eq_true. tauto.
  - apply sublist_filter.
  - induction pulls as [|pull pulls IH]; [done|].
    rewrite filter_cons. case_decide as Hme; [|done].
    rewrite filter_cons, decide_True by done. by rewrite IH.
  - intros Hnone. induction pulls as [|pull pulls IH]; [done|].
    rewrite filter_cons, decide_False; [done|].
    intros Hme. apply bool_decide_eq_true in Hme. by eapply Hnone.
Qed.

Section Grouping.
Context (options : gmap string JsValue).

Lemma branch_pulls_push (branch name : string) (pull : Pull)
    (branches : list (string * list Pull)) :
  branch_pulls (push_to_branch branch pull branches) name
  = branch_pulls branches name ++ (if decide (name = branch) then [pull] else []).
Proof.
  unfold branch_pulls.
  induction branches as [|[key pulls] rest IH]; simpl.
  - destruct (String.eqb_spec branch name) as [->|Hne]; simpl.
    + by rewrite decide_True.
    + by rewrite decide_False.
  - destruct (String.eqb_spec key branch) as [->|Hkey]; simpl.
    + destruct (String.eqb_spec branch name) as [->|Hne]; simpl.
      * by rewrite decide_True.
      * rewrite decide_False by done. by rewrite app_nil_r.
    + destruct (String.eqb_spec key name) as [->|Hne]; simpl.
      * rewrite decide_False by done. by rewrite app_nil_r.
      * apply IH.
Qed.

Lemma branch_pulls_grouped (name : string) (pulls : list Pull)
    (start : list (string * list Pull)) :
  branch_pulls (grouped options start pulls) name
  = branch_pulls start name
    ++ filter (fun pull => passes_branch_filter options pull
                           /\ ref (pull_base pull) = name) pulls.
Proof.
  revert start. induction pulls as [|pull pulls IH]; intros start; simpl.
  - by rewrite app_nil_r.
  - unfold grouped in *. simpl. rewrite IH, filter_cons.
    destruct (negb _ || strict_eq _ _) eqn:Hpass.
    + rewrite branch_pulls_push, <- app_assoc. f_equal.
      destruct (decide (name = ref (pull_base pull))) as [->|Hne].
      * by rewrite decide_True.
      * rewrite decide_False; [done|]. intros [_ Heq]. by apply Hne.
    + rewrite decide_False; [done|].
      unfold passes_branch_filter. rewrite Hpass. by intros [? _].
Qed.

Lemma keys_push (branch : string) (pull : Pull) (branches : list (string * list Pull)) :
  (push_to_branch branch pull branches).*1
  = if decide (branch ∈ branches.*1) then branches.*1 else branches.*1 ++ [branch].
Proof.
  induction branches as [|[key pulls] rest IH].
  - rewrite decide_False; [done|]. apply not_elem_of_nil.
  - cbn [push_to_branch]. rewrite !fmap_cons. cbn [fst].
    destruct (String.eqb_spec key branch) as [->|Hkey].
    + rewrite fmap_cons. cbn [fst].
      rewrite decide_True; [done|]. apply list_elem_of_here.
    + rewrite fmap_cons, IH. cbn [fst].
      destruct (decide (branch ∈ rest.*1)) as [Hin|Hnotin].
      * rewrite decide_True; [done|]. by apply list_elem_of_further.
      * rewrite decide_False; [done|].
        intros Hin. apply elem_of_cons in Hin as [->|Hin]; done.
Qed.

Lemma keys_grouped_NoDup (pulls : list Pull) (start : list (string * list Pull)) :
  NoDup start.*1 -> NoDup (grouped options start pulls).*1.
Proof.
  revert start. induction pulls as [|pull pulls IH]; intros start Hstart; [done|].
  unfold grouped in *. simpl. apply IH.
  destruct (negb _ || strict_eq _ _); [|done].
  rewrite keys_push. case_decide as Hin; [done|].
  apply NoDup_app. split; [done|]. split.
  - intros key Hkey Hsingle. apply list_elem_of_singleton in Hsingle. by subst.
  - apply NoDup_singleton.
Qed.

Lemma keys_grouped_elem (name : string) (pulls : list Pull)
    (start : list (string * list Pull)) :
  name ∈ (grouped options start pulls).*1
  <-> name ∈ start.*1
      \/ exists pull, pull ∈ pulls /\ passes_branch_filter options pull
                      /\ ref (pull_base pull) = name.
Proof.
  revert start. induction pulls as [|pull pulls IH]; intros start.
  - simpl. split; [by left|]. intros [Hin|(pull & Hin & _)]; [done|].
    by apply not_elem_of_nil in Hin.
  - unfold grouped in *. simpl. rewrite IH. clear IH.
    unfold passes_branch_filter.
    destruct (negb _ || strict_eq _ _) eqn:Hpass.
    + rewrite keys_push. case_decide as Hin.
      * split.
        -- intros [Hstart|(p & Hp & Hrest)]; [by left|].
           right. exists p. split; [by apply list_elem_of_further|done].
        -- intros [Hstart|(p & Hp & Hf & Hname)]; [by left|].
           apply elem_of_cons in Hp as [->|Hp].
           ++ left. by rewrite <- Hname.
           ++ right. by exists p.
      * rewrite elem_of_app, list_elem_of_singleton. split.
        -- intros [[Hstart| ->]|(p & Hp & Hrest)].
           ++ by left.
           ++ right. exists pull. split; [apply list_elem_of_here|done].
           ++ right. exists p. split; [by apply list_elem_of_further|done].
        -- intros [Hstart|(p & Hp & Hf & Hname)]; [by left; left|].
           apply elem_of_cons in Hp as [->|Hp].
           ++ left. by right.
           ++ right. by exists p.
    + split.
      * intros [Hstart|(p & Hp & Hrest)]; [by left|].
        right. exists p. split; [by apply list_elem_of_further|done].
      * intros [Hstart|(p & Hp & Hf & Hname)]; [by left|].
        apply elem_of_cons in Hp as [->|Hp].
        -- by rewrite Hpass in Hf.
        -- right. by exists p.
Qed.

Lemma Object_keys_order_Permutation (keys : list string) :
  Object_keys_order keys ≡ₚ keys.
Proof.
  unfold Object_keys_order. rewrite Array_sort_Permutation.
  induction keys as [|key keys IH]; [done|].
  rewrite !filter_cons.
  destruct (array_index key) as [n|] eqn:Hkey.
  - rewrite decide_True by by eexists. rewrite decide_False by done.
    simpl. by rewrite IH.
  - rewrite decide_False by (by intros [? ?]). rewrite decide_True by done.
    rewrite <- Permutation_middle. by rewrite IH.
Qed.

Lemma Object_keys_order_plain (keys : list string) :
  Forall (fun key => array_index key = None) keys ->
  Object_keys_order keys = keys.
Proof.
  intros Hplain. unfold Object_keys_order.
  assert (Hnone : filter (fun k => is_Some (array_index k)) keys = []).
  { induction Hplain as [|key keys Hkey Hplain IH]; [done|].
    rewrite filter_cons, decide_False; [done|]. rewrite Hkey. by intros [? ?]. }
  assert (Hall : filter (fun k => array_index k = None) keys = keys).
  { induction Hplain as [|key keys Hkey Hplain IH]; [done|].
    rewrite filter_cons, decide_True by done. f_equal. apply IH.
    by rewrite filter_cons, decide_False in Hnone
      by (rewrite Hkey; by intros [? ?]). }
  by rewrite Hnone, Hall.
Qed.


Lemma keys_grouped_first_seen (pulls : list Pull) (start : list (string * list Pull)) :
  (grouped options start pulls).*1
  = start.*1
    ++ filter (fun name => name ∉ start.*1)
         (first_seen ((fun pull => ref (pull_base pull))
                      <$> filter (passes_branch_filter options) pulls)).
Proof.
  revert start. induction pulls as [|pull pulls IH]; intros start.
  - simpl. by rewrite app_nil_r.
  - unfold grouped in *. cbn [fold_left]. rewrite IH. clear IH.
    rewrite filter_cons.
    destruct (decide (passes_branch_filter options pull)) as [Hpass|Hpass];
      unfold passes_branch_filter in Hpass.
    + rewrite Hpass. rewrite fmap_cons. cbn [first_seen].
      rewrite keys_push, filter_cons.
      set (seen := first_seen _).
      destruct (decide (ref (pull_base pull) ∈ start.*1)) as [Hin|Hnotin].
      * rewrite decide_False by (by intros Hn). f_equal.
        rewrite list_filter_filter. apply list_filter_iff.
        intros name. simpl. split; [|by intros [? ?]]. intros Hname.
        split; [done|]. intros ->. done.
      * rewrite decide_True by done. rewrite <- app_assoc. simpl. do 2 f_equal.
        rewrite list_filter_filter. apply list_filter_iff.
        intros name. simpl. rewrite elem_of_app, list_elem_of_singleton. tauto.
    + apply not_true_is_false in Hpass. by rewrite Hpass.
Qed.

End Grouping.



(** ** Failures inside a listing *)

Section ListingFailures.
Context `{Collaborators}.

(** X9: a listing whose request fails with any status other than 404 hands
    that error to its callback at once: no warning, no further request,
    nothing printed, and the world as the failed request left it. *)
Theorem list__other_error (user repo : JsValue) (st : State) (err : Error) (w : World) :
  pullRequests_getAll (list_payload (options st) user repo) (world st)
  = (Failed err, w) ->
  code err <> 404 ->
  list_ user repo st
  = (Done (Some err),
     {| options := options st; world := w;
        events := events st
                  ++ [EvApi "pullRequests.getAll"
                        (list_payload (options st) user repo)] |}).
Proof.
  intros Hget Hcode. unfold list_, list_operations.
  unfold_monad. simpl. rewrite Hget. simpl.
  destruct (Z.eqb_spec (code err) 404) as [Heq|_]; [done|]. done.
Qed.

Lemma addCombinedStatus_app (user repo : JsValue) (before after : list Pull)
    (st st1 : State) (done_ : list Pull) :
  addCombinedStatus user repo before st = (Done done_, st1) ->
  addCombinedStatus user repo (before ++ after) st
  = (let* rest := addCombinedStatus user repo after in ret (done_ ++ rest)) st1.
Proof.
  revert st done_. induction before as [|pull before IH]; intros st done_ Hbefore.
  - simpl in *. injection Hbefore as <- <-. unfold bind, ret. simpl.
    by destruct (addCombinedStatus user repo after st) as [[rest| |] st'].
  - simpl in *. unfold request, bind at 1 2 in Hbefore. unfold request, bind at 1 2.
    simpl in *.
    destruct (statuses_getCombined _ (world st)) as [[data|err] w]; simpl in *;
      [|done].
    unfold bind at 1 in Hbefore. unfold bind at 1.
    destruct (addCombinedStatus user repo before _) as [[rest| |] st2] eqn:Hrest;
      simpl in Hbefore; try done.
    injection Hbefore as <- <-.
    rewrite (IH _ _ Hrest). unfold bind, ret. simpl.
    by destruct (addCombinedStatus user repo after st2) as [[more| |] st3].
Qed.

Lemma addCombinedStatus_fails (user repo : JsValue) (before after : list Pull)
    (pull : Pull) (st st1 : State) (done_ : list Pull) (err : Error) (w : World) :
  addCombinedStatus user repo before st = (Done done_, st1) ->
  statuses_getCombined
    (object [("repo", repo); ("user", user);
             ("sha", JsString (sha (pull_head pull)))]) (world st1)
  = (Failed err, w) ->
  addCombinedStatus user repo (before ++ pull :: after) st
  = (Throw "TypeError: Cannot read property 'state' of undefined",
     {| options := options st1; world := w;
        events := events st1
                  ++ [EvApi "statuses.getCombined"
                        (object [("repo", repo); ("user", user);
                                 ("sha", JsString (sha (pull_head pull)))])] |}).
Proof.
  intros Hbefore Hstatus. rewrite (addCombinedStatus_app _ _ _ _ _ _ _ Hbefore).
  simpl. unfold_monad. simpl. by rewrite Hstatus.
Qed.

(** X10: without a complexity sort a listing is its one request, the
    statuses and the report.  The statuses are requested pull by pull; when
    the request for one of them fails, the stage reads [data.state] of no
    data and throws: the statuses after it are not requested, nothing is
    printed, and [list] ends by that exception without calling its
    callback. *)
Theorem list__status_failure_throws (user repo : JsValue)
    (data before after done_ : list Pull) (pull : Pull) (st st2 : State)
    (err : Error) (w0 w : World) :
  let payload := list_payload (options st) user repo in
  let requested :=
    {| options := options st; world := w0;
       events := events st ++ [EvApi "pullRequests.getAll" payload] |} in
  let status :=
    object [("repo", repo); ("user", user);
            ("sha", JsString (sha (pull_head pull)))] in
  prop (options st) "sort" <> JsString SORT_COMPLEXITY ->
  pullRequests_getAll payload (world st) = (Ok data, w0) ->
  (if truthy (prop (options st) "me")
   then filterPullsSentByMe_ (options st) data else data)
  = before ++ pull :: after ->
  addCombinedStatus user repo before requested = (Done done_, st2) ->
  statuses_getCombined status (world st2) = (Failed err, w) ->
  list_ user repo st
  = (Throw "TypeError: Cannot read property 'state' of undefined",
     {| options := options st2; world := w;
        events := events st2 ++ [EvApi "statuses.getCombined" status] |}).
Proof.
  intros payload requested status Hsort Hget Hmine Hbefore Hstatus.
  assert (Hnot : strict_eq (prop (options st) "sort") (JsString SORT_COMPLEXITY) = false).
  { unfold strict_eq. by rewrite bool_decide_eq_false. }
  pose proof (addCombinedStatus_fails _ _ _ after _ _ _ _ _ _ Hbefore Hstatus) as Hthrow.
  unfold list_, list_operations. unfold_monad. simpl.
  fold payload. rewrite Hget. simpl. rewrite Hmine, Hnot, andb_false_r.
  fold requested. by rewrite Hthrow.
Qed.
End ListingFailures.

(** ** The detail requests of a complexity sort *)

Section ComplexityFailures.
Context `{Collaborators}.

Lemma addComplexityParamToPulls__app (before after : list Pull) (st st1 : State)
    (scored : list Pull) :
  addComplexityParamToPulls_ before st = (Done (None, scored), st1) ->
  addComplexityParamToPulls_ (before ++ after) st
  = (let* (err, results) := addComplexityParamToPulls_ after in
     ret (err, scored ++ results)) st1.
Proof.
  revert st scored. induction before as [|pull before IH]; intros st scored Hbefore.
  - simpl in *. injection Hbefore as <- <-. unfold bind, ret. simpl.
    by destruct (addComplexityParamToPulls_ after st) as [[[err results]| |] st'].
  - simpl in *. unfold bind at 1 in Hbefore. unfold bind at 1. simpl in *.
    unfold bind at 1 in Hbefore. unfold bind at 1.
    destruct (getPullRequest_ _) as [[[pull2|err]| |] st2]; simpl in *; try done.
    unfold bind at 1 in Hbefore. unfold bind at 1.
    destruct (addComplexityParamToPulls_ before st2)
      as [[[err results]| |] st3] eqn:Hrest; simpl in Hbefore; try done.
    injection Hbefore as -> <- <-.
    rewrite (IH _ _ Hrest). unfold bind, ret. simpl.
    by destruct (addComplexityParamToPulls_ after st3) as [[[err more]| |] st4].
Qed.

(** X11: the detail requests stop at the first failure: the pulls before
    it are scored, the failing pull comes back unscored as the last result
    together with the error, no request is made for the pulls after it, and
    [options.number] is left at the number of the failing pull. *)
Theorem addComplexityParamToPulls__stops (before after scored : list Pull)
    (pull : Pull) (st st1 : State) (err : Error) (w : World) :
  let payload :=
    object [("number", JsNumber (pull_number pull));
            ("repo", prop (options st1) "repo");
            ("user", prop (options st1) "user")] in
  addComplexityParamToPulls_ before st = (Done (None, scored), st1) ->
  pullRequests_get payload (world st1) = (Failed err, w) ->
  addComplexityParamToPulls_ (before ++ pull :: after) st
  = (Done (Some err, scored ++ [pull]),
     {| options := <["number" := JsNumber (pull_number pull)]> (options st1);
        world := w;
        events := events st1 ++ [EvApi "pullRequests.get" payload] |}).
Proof.
  intros payload Hbefore Hget.
  rewrite (addComplexityParamToPulls__app _ _ _ _ _ Hbefore).
  simpl. unfold getPullRequest_. unfold_monad. simpl.
  rewrite prop_insert_eq, !prop_insert_ne by done. fold payload.
  by rewrite Hget.
Qed.

End ComplexityFailures.

(** ** More on the codec *)

Lemma append_cancel_l (p a b : string) : p +:+ a = p +:+ b -> a = b.
Proof. induction p as [|c p IH]; simpl; [done|]. intros [= Heq]. by apply IH. Qed.

Lemma Number_toString_inj (n m : Z) : Number_toString n = Number_toString m -> n = m.
Proof.
  intros Heq. pose proof (parseDecimal_Number_toString n) as Hn.
  rewrite Heq, parseDecimal_Number_toString in Hn. by injection Hn.
Qed.

(** X13: under one prefix two different pull-request numbers never share a
    pull branch: the encoder is injective on the non-zero numbers, and on
    the non-empty texts. *)
Theorem pull_branch_names_distinct (config : Config) :
  (forall n m : Z,
     n <> 0 -> m <> 0 -> n <> m ->
     getBranchNameFromPullNumber_ config (JsNumber n)
     <> getBranchNameFromPullNumber_ config (JsNumber m))
  /\ (forall s t : string,
        s <> "" -> t <> "" -> s <> t ->
        getBranchNameFromPullNumber_ config (JsString s)
        <> getBranchNameFromPullNumber_ config (JsString t)).
Proof.
  split.
  - intros n m Hn Hm Hne. unfold getBranchNameFromPullNumber_. simpl.
    destruct (Z.eqb_spec n 0); [done|]. destruct (Z.eqb_spec m 0); [done|]. simpl.
    intros [= Heq]. apply append_cancel_l, Number_toString_inj in Heq. done.
  - intros s t Hs Ht Hne. unfold getBranchNameFromPullNumber_.
    rewrite !truthy_JsString by done. simpl.
    intros [= Heq]. by apply append_cancel_l in Heq.
Qed.

Lemma pull_branch_names_distinct_witness :
  getBranchNameFromPullNumber_ example_config (JsNumber 4)
  <> getBranchNameFromPullNumber_ example_config (JsNumber 42).
Proof.
  destruct (pull_branch_names_distinct example_config) as [Hnumbers _].
  apply Hnumbers; lia.
Defined.

(** ** More on the sort *)

(** The score of [a] is at least that of [b]. *)
Lemma compareComplexity_le_ge (a b : Pull) (x y : Z) :
  complexity a = Some x -> complexity b = Some y ->
  compareComplexity a b <= 0 <-> y <= x.
Proof.
  intros Ha Hb. unfold compareComplexity, complexity_gt. rewrite Ha, Hb.
  destruct (Z.ltb_spec y x), (Z.ltb_spec x y); lia.
Qed.

Lemma sort_insert_at_least (x : Pull) (l : list Pull) :
  is_Some (complexity x) ->
  Forall (fun y => is_Some (complexity y)) l ->
  StronglySorted at_least l ->
  StronglySorted at_least (sort_insert compareComplexity x l).
Proof.
  intros [cx Hx]. induction l as [|y l IH]; intros Hsome Hsorted; simpl.
  - by repeat constructor.
  - inversion Hsome as [|? ? [cy Hy] Hsome']; subst.
    inversion Hsorted as [|? ? Hl Hyl]; subst.
    destruct (Z.leb_spec (compareComplexity x y) 0) as [Hle|Hgt].
    + apply (compareComplexity_le_ge x y cx cy Hx Hy) in Hle.
      constructor; [done|]. constructor.
      * unfold at_least. by rewrite Hx, Hy.
      * eapply Forall_impl; [exact Hyl|]. intros z. unfold at_least.
        rewrite Hx, Hy. destruct (complexity z); [lia|done].
    + constructor; [by apply IH|].
      eapply Permutation_Forall; [symmetry; apply sort_insert_Permutation|].
      constructor; [|done]. unfold at_least. rewrite Hx, Hy.
      pose proof (compareComplexity_le_ge x y cx cy Hx Hy). lia.
Qed.

Lemma StronglySorted_snoc {A} (R : A -> A -> Prop) (l : list A) (x : A) :
  StronglySorted R l -> Forall (fun a => R a x) l -> StronglySorted R (l ++ [x]).
Proof.
  induction 1 as [|y l Hl IH Hy]; intros Hx; simpl.
  - by repeat constructor.
  - inversion Hx as [|? ? Hyx Hlx]; subst. constructor; [by apply IH|].
    apply Forall_app. split; [done|]. by repeat constructor.
Qed.

Lemma StronglySorted_rev {A} (R : A -> A -> Prop) (l : list A) :
  StronglySorted R l -> StronglySorted (fun a b => R b a) (rev l).
Proof.
  induction 1 as [|x l Hl IH Hx]; simpl; [constructor|].
  apply StronglySorted_snoc; [done|].
  eapply Permutation_Forall; [apply Permutation_rev|done].
Qed.

(** X14: when every pull has a score, ties or not, the descending sort
    puts them in non-increasing order of score and the ascending one in
    non-decreasing order; both keep every pull. *)
Theorem sort_by_complexity_ordered (options : gmap string JsValue) (data : list Pull) :
  Forall (fun pull => is_Some (complexity pull)) data ->
  let desc :=
    sortPullsByComplexity_ (<["direction" := JsString DIRECTION_DESC]> options) data in
  let asc :=
    sortPullsByComplexity_ (<["direction" := JsString DIRECTION_ASC]> options) data in
  StronglySorted at_least desc
  /\ StronglySorted (fun a b => at_least b a) asc
  /\ desc ≡ₚ data /\ asc ≡ₚ data.
Proof.
  intros Hsome. unfold sortPullsByComplexity_, prop. rewrite !lookup_insert_eq. simpl.
  assert (Hsorted : StronglySorted at_least (Array_sort compareComplexity data)).
  { induction Hsome as [|pull data Hpull Hsome IH]; simpl; [constructor|].
    apply sort_insert_at_least; [done| |done].
    eapply Permutation_Forall; [symmetry; apply Array_sort_Permutation|done]. }
  split; [done|]. split; [by apply StronglySorted_rev|].
  split; [apply Array_sort_Permutation|].
  rewrite <- Permutation_rev. apply Array_sort_Permutation.
Qed.

Lemma sort_by_complexity_ordered_witness :
  StronglySorted at_least
    (sortPullsByComplexity_ (<["direction" := JsString DIRECTION_DESC]> ∅)
       [example_pull 1 (Some 5); example_pull 2 (Some 7); example_pull 3 (Some 5)]).
Proof.
  apply (sort_by_complexity_ordered ∅
           [example_pull 1 (Some 5); example_pull 2 (Some 7); example_pull 3 (Some 5)]).
  repeat constructor; by eexists.
Defined.

(** ** More on the reconciler and on the listing of all repositories *)

Section ReconcilerMore.
Context `{Collaborators}.

(** X15: when several open pull requests pass the test of the reconciler,
    the one listed last is the one returned; the scan does not stop at the
    first. *)
Theorem reconciler_last_match_wins (originalError : Error) (user : JsValue)
    (st : State) (pulls : list Pull) (w : World) :
  let payload :=
    object [("user", user); ("repo", prop (options st) "repo");
            ("state", JsString STATE_OPEN)] in
  pullRequests_getAll payload (world st) = (Ok pulls, w) ->
  checkPullRequestIntegrity_ originalError user st
  = (Done (match last (filter (fun data =>
                                 integrity_match (options st) user data = true)
                         pulls) with
           | Some pull => (None, Some pull)
           | None => (Some originalError, None)
           end),
     {| options := options st; world := w;
        events := events st ++ [EvApi "pullRequests.getAll" payload] |}).
Proof.
  intros payload Hget. unfold checkPullRequestIntegrity_. unfold_monad. simpl.
  fold payload. rewrite Hget. simpl. by rewrite integrity_scan_last.
Qed.

End ReconcilerMore.

(** ** Resolution without an action *)

Section RunMore.
Context `{Extensions}.

(** X17: a run that is asked for no action makes no call at all; what it
    leaves behind is the resolution: [number] (the one given, else the one
    decoded from the current branch), [pullBranch] encoded from it, [state]
    defaulted to "open" and [branch] defaulted to the configured branch. *)
Theorem run_without_action (st : State) (number : JsValue) :
  let o := options st in
  (if truthy (prop o "number") then Some (prop o "number")
   else getPullRequestNumberFromBranch_ (prop o "currentBranch")
          (pull_branch_name_prefix config)) = Some number ->
  Forall (fun flag => truthy (prop o flag) = false)
    ["browser"; "close"; "comment"; "fetch"; "merge"; "rebase"; "fwd"; "info";
     "list"; "open"; "submit"] ->
  prop o "fwd" <> JsString "" ->
  prop o "submit" <> JsString "" ->
  run st
  = (Done tt,
     {| options :=
          <["branch" := logical_or (prop o "branch")
                          (JsString (default_branch config))]>
            (<["state" := logical_or (prop o "state") (JsString STATE_OPEN)]>
               (<["pullBranch" := getBranchNameFromPullNumber_ config number]>
                  (<["number" := number]> o)));
        world := world st; events := events st |}).
Proof.
  intros o Hnumber Hflags Hfwd Hsubmit.
  repeat match goal with
         | H : Forall _ (_ :: _) |- _ =>
             let Hflag := fresh "Hflag" in
             apply Forall_cons in H as [Hflag H]
         end.
  assert (Hfwd' : strict_eq (prop o "fwd") (JsString "") = false)
    by (unfold strict_eq; by rewrite bool_decide_eq_false).
  assert (Hsubmit' : strict_eq (prop o "submit") (JsString "") = false)
    by (unfold strict_eq; by rewrite bool_decide_eq_false).
  subst o. unfold run. unfold_monad. cbv beta.
  destruct (truthy (prop (options st) "number")) eqn:Hgiven;
    [injection Hnumber as <-|rewrite Hnumber]; simpl.
  all: repeat first
    [ rewrite Hflag | rewrite Hflag0 | rewrite Hflag1 | rewrite Hflag2
    | rewrite Hflag3 | rewrite Hflag4 | rewrite Hflag5 | rewrite Hflag6
    | rewrite Hflag7 | rewrite Hflag8 | rewrite Hflag9 | rewrite Hfwd'
    | rewrite Hsubmit' | rewrite andb_false_r | progress simpl_prop
    | progress simpl ].
  all: done.
Qed.
End RunMore.

(** ** Info and the handlers *)

Section InfoFacts.
Context `{Collaborators}.

Lemma get_read_only (user repo number : JsValue) :
  maintains (appends read_only) (get user repo number).
Proof. pose proof printPullInfo__read_only. unfold get. maintains_calls. Qed.

Lemma get_same_options (user repo number : JsValue) :
  maintains same_options (get user repo number).
Proof. pose proof printPullInfo__same_options. unfold get. maintains_calls. Qed.

Lemma get_returns (user repo number : JsValue) :
  ends_within (eq Returned) (get user repo number).
Proof. pose proof printPullInfo__returns. unfold get. ends_calls. Qed.

(** X18: [get] only reads and prints and always returns: it changes no
    option, runs no command, sends no create or update request; when the
    request fails it logs one warning naming user, repository and number,
    and prints nothing. *)
Theorem get_is_harmless (user repo number : JsValue) (st : State) :
  let payload := object [("repo", repo); ("user", user); ("number", number)] in
  (exists evs, events (get user repo number st).2 = events st ++ evs
               /\ Forall read_only evs)
  /\ options (get user repo number st).2 = options st
  /\ (get user repo number st).1 = Done tt
  /\ (forall err w,
        pullRequests_get payload (world st) = (Failed err, w) ->
        get user repo number st
        = (Done tt,
           {| options := options st; world := w;
              events := events st
                        ++ [EvApi "pullRequests.get" payload;
                            EvWarn ("Can't get pull request " +:+ ToString user +:+
                                    "/" +:+ ToString repo +:+ "/" +:+
                                    ToString number)] |})).
Proof.
  intros payload. split; [apply get_read_only|]. split; [apply get_same_options|].
  split.
  - pose proof (get_returns user repo number st) as Hret.
    by destruct (get user repo number st) as [[[]| |] st'].
  - intros err w Hget. unfold get. unfold_monad. simpl. fold payload.
    rewrite Hget. simpl. by rewrite <- app_assoc.
Qed.
End InfoFacts.

Section HandlerFacts.
Context `{Extensions}.

(** X19: a close that fails is not fatal: the handler logs a warning
    and returns, the post hooks do not run and no option is set; the run
    goes on with the actions after it. *)
Theorem closeHandler_failure_warns (st st1 st2 : State) (err : Error)
    (got : option Pull) :
  hooks_before "pull-request.close" st = (Done tt, st1) ->
  close {| options := options st1; world := world st1;
           events := events st1
                     ++ [EvLog ("Closing pull request " +:+
                                colors_green ("#" +:+
                                  ToString (prop (options st1) "number")))] |}
  = (Done (Some err, got), st2) ->
  _closeHandler st
  = (Done tt,
     {| options := options st2; world := world st2;
        events := events st2
                  ++ [EvWarn ("Can't close pull request " +:+
                              ToString (prop (options st2) "number") +:+ ".")] |}).
Proof.
  intros Hhooks Hclose. unfold _closeHandler, hooks_invoke.
  unfold bind at 1. rewrite Hhooks.
  unfold bind at 1, opt at 1. unfold bind at 1, logger_log at 1, emit at 1.
  unfold bind at 1. rewrite Hclose. reflexivity.
Qed.

(** X20: a reopen that fails is fatal: the handler reports the error and
    the process ends there; the post hooks do not run. *)
Theorem openHandler_failure_exits (st st1 st2 : State) (err : Error)
    (got : option Pull) :
  hooks_before "pull-request.open" st = (Done tt, st1) ->
  open {| options := options st1; world := world st1;
          events := events st1
                    ++ [EvLog ("Opening pull request " +:+
                               colors_green ("#" +:+
                                 ToString (prop (options st1) "number")))] |}
  = (Done (Some err, got), st2) ->
  _openHandler st
  = (Exit 1,
     {| options := options st2; world := world st2;
        events := events st2
                  ++ [EvError ("Can't open pull request " +:+
                               ToString (prop (options st2) "number") +:+ ".")] |}).
Proof.
  intros Hhooks Hopen. unfold _openHandler, hooks_invoke.
  unfold bind at 1. rewrite Hhooks.
  unfold bind at 1, opt at 1. unfold bind at 1, logger_log at 1, emit at 1.
  unfold bind at 1. rewrite Hopen. reflexivity.
Qed.

(** X21: how a failed submit is reported depends on the message of the
    error: when it parses as the JSON of the hosting API the first message
    in it is reported and the process ends; when it does not, the error
    object is written to the console and the handler returns.  In neither
    case do the post hooks run. *)
Theorem submitHandler_failure_report (st st1 st2 : State) (err : Error)
    (got : option Pull) :
  hooks_before "pull-request.submit" st = (Done tt, st1) ->
  submit (prop (options st1) "submit")
    {| options := options st1; world := world st1;
       events := events st1
                 ++ [EvLog ("Submitting pull request to " +:+
                            colors_magenta ("@" +:+
                              ToString (prop (options st1) "submit")))] |}
  = (Done (Some err, got), st2) ->
  _submitHandler st
  = match first_error_message (message err) with
    | Some detail =>
        (Exit 1,
         {| options := options st2; world := world st2;
            events := events st2
                      ++ [EvError ("Can't submit pull request. " +:+ detail)] |})
    | None =>
        (Done tt,
         {| options := options st2; world := world st2;
            events := events st2 ++ [EvConsoleError err] |})
    end.
Proof.
  intros Hhooks Hsubmit. unfold _submitHandler, hooks_invoke.
  unfold bind at 1. rewrite Hhooks.
  unfold bind at 1, opt at 1. unfold bind at 1, logger_log at 1, emit at 1.
  unfold bind at 1, opt at 1. unfold bind at 1. cbn [options world events].
  rewrite Hsubmit. unfold try_catch.
  by destruct (first_error_message (message err)).
Qed.
End HandlerFacts.

(** ** The handlers of fetch and list *)

Section HandlerModes.
Context `{Extensions}.

(** X22: the fetch handler picks the command from the options as they
    are before the pre hooks, merge before rebase, and words its message
    from the options as they are after them, rebase before merge: with both
    flags set it announces a rebase into the current branch and merges.
    After a successful fetch the post hooks run on the state the two
    commands left. *)
Theorem fetchHandler_mode (st st1 : State) (pull : Pull) (w : World) :
  let o := options st1 in
  let payload :=
    object [("number", prop o "number"); ("repo", prop o "repo");
            ("user", prop o "user")] in
  let pullBranch := prop o "pullBranch" in
  let applied :=
    if truthy (prop (options st) "merge") then GitMerge pullBranch
    else if truthy (prop (options st) "rebase") then GitRebase pullBranch
    else GitCheckout pullBranch in
  let announced :=
    if truthy (prop o "rebase") then (" and rebasing", prop o "currentBranch")
    else if truthy (prop o "merge") then (" and merging", prop o "currentBranch")
    else ("", pullBranch) in
  let fetched :=
    GitFetch (ssh_url (branch_repo (pull_head pull))) (ref (pull_head pull))
      pullBranch in
  hooks_before "pull-request.fetch" st = (Done tt, st1) ->
  pullRequests_get payload (world st1) = (Ok pull, w) ->
  _fetchHandler st
  = hooks_after "pull-request.fetch"
      {| options := o; world := git_run applied (git_run fetched w);
         events := events st1
                   ++ [EvLog ("Fetching pull request " +:+
                              colors_green ("#" +:+ ToString (prop o "number")) +:+
                              announced.1 +:+ " into branch " +:+
                              colors_green (ToString announced.2));
                       EvApi "pullRequests.get" payload;
                       EvGit fetched; EvGit applied] |}.
Proof.
  intros o payload pullBranch applied announced fetched Hhooks Hget.
  unfold _fetchHandler, hooks_invoke.
  unfold bind at 1, get_options at 1. unfold bind at 1. rewrite Hhooks.
  unfold bind at 1, get_options at 1. fold o.
  assert (Hlog : forall (line : string * JsValue) (k : M unit),
    (let (operation, branch) := line in
     logger_log ("Fetching pull request " +:+
                 colors_green ("#" +:+ ToString (prop o "number")) +:+
                 operation +:+ " into branch " +:+ colors_green (ToString branch)) >> k) st1
    = k {| options := o; world := world st1;
           events := events st1
                     ++ [EvLog ("Fetching pull request " +:+
                                colors_green ("#" +:+ ToString (prop o "number")) +:+
                                line.1 +:+ " into branch " +:+
                                colors_green (ToString line.2))] |}).
  { by intros [operation branch] k. }
  fold announced. rewrite Hlog. clear Hlog.
  unfold fetch, getPullRequest_. unfold_monad. simpl. fold o payload.
  rewrite Hget. simpl. fold pullBranch fetched. subst applied.
  destruct (truthy (prop (options st) "merge")); simpl;
    [|destruct (truthy (prop (options st) "rebase")); simpl];
    by rewrite <- !app_assoc.
Qed.

End HandlerModes.

Section ListHandler.
Context `{Collaborators}.

(** X23: the list handler stores its defaults before it lists: a missing
    sort becomes "created" and a missing direction "desc", both stay in
    [options], and the one listing request of a single repository, sent
    after the line that announces it, carries them, with "created" in place
    of a complexity sort. *)
Theorem listHandler_defaults (st : State) :
  let o := options st in
  let sort := logical_or (prop o "sort") (JsString SORT_CREATED) in
  let direction := logical_or (prop o "direction") (JsString DIRECTION_DESC) in
  let payload :=
    object [("direction", direction); ("repo", prop o "repo");
            ("sort", if strict_eq sort (JsString SORT_COMPLEXITY)
                     then JsString SORT_CREATED else sort);
            ("state", prop o "state"); ("user", prop o "user")] in
  truthy (prop o "all") = false ->
  (exists line rest,
     events (_listHandler st).2
     = events st ++ EvLog line :: EvApi "pullRequests.getAll" payload :: rest
     /\ Forall (fun e => ~ is_listing e) rest)
  /\ prop (options (_listHandler st).2) "sort" = sort
  /\ prop (options (_listHandler st).2) "direction" = direction.
Proof.
  intros o sort direction payload Hall.
  set (defaulted := <["direction" := direction]> (<["sort" := sort]> o)).
  assert (Hpayload : list_payload defaulted (prop o "user") (prop o "repo") = payload).
  { unfold list_payload, defaulted. by simpl_prop. }
  assert (Hrun : exists line,
    _listHandler st
    = (let* err := list_ (prop o "user") (prop o "repo") in
       match err with
       | Some _ => logger_error "Can't list pull requests."
       | None => ret tt
       end)
        {| options := defaulted; world := world st;
           events := events st ++ [EvLog line] |}).
  { unfold _listHandler. unfold_monad. simpl. fold o. fold sort. simpl_prop.
    fold direction. rewrite Hall.
    destruct (truthy (prop o "me")); eexists; reflexivity. }
  destruct Hrun as [line Hrun]. rewrite Hrun. clear Hrun.
  set (logged := {| options := defaulted; world := world st;
                    events := events st ++ [EvLog line] |}).
  destruct (list__single_request (prop o "user") (prop o "repo") logged)
    as (rest & Hevents & Hrest).
  pose proof (list__frame (prop o "user") (prop o "repo") logged) as Hframe.
  simpl in Hevents. rewrite Hpayload, <- app_assoc in Hevents. simpl in Hevents.
  assert (Hother : Forall (fun e => ~ is_listing e) rest).
  { eapply Forall_impl; [exact Hrest|]. by intros e [? _]. }
  assert (Hkept : forall k, k <> "number" ->
    prop (options (list_ (prop o "user") (prop o "repo") logged).2) k
    = prop defaulted k).
  { intros k Hk. unfold prop. by rewrite Hframe. }
  unfold_monad.
  destruct (list_ (prop o "user") (prop o "repo") logged) as [[[err|]| |] st'];
    simpl in *.
  - split.
    + exists line, (rest ++ [EvError "Can't list pull requests."]).
      rewrite Hevents, <- app_assoc. split; [done|].
      apply Forall_app. split; [done|]. repeat constructor. simpl. tauto.
    + rewrite !Hkept by done. unfold defaulted. by simpl_prop.
  - split; [by exists line, rest|].
    rewrite !Hkept by done. unfold defaulted. by simpl_prop.
  - split; [by exists line, rest|].
    rewrite !Hkept by done. unfold defaulted. by simpl_prop.
  - split; [by exists line, rest|].
    rewrite !Hkept by done. unfold defaulted. by simpl_prop.
Qed.
End ListHandler.

(** ** The further properties at concrete inputs *)

Lemma list__other_error_witness :
  let st :=
    mock_state (Failed (example_error 404)) (Failed (example_error 500))
      (Failed (example_error 422)) (Ok []) example_listing_options in
  (list_ (JsString "node-gh") (JsString "gh") st).1 = Done (Some (example_error 500))
  /\ events (list_ (JsString "node-gh") (JsString "gh") st).2
     = [EvApi "pullRequests.getAll"
          (list_payload example_listing_options (JsString "node-gh") (JsString "gh"))].
Proof.
  intros st.
  rewrite (list__other_error (JsString "node-gh") (JsString "gh") st
             (example_error 500) tt eq_refl ltac:(vm_compute; discriminate)).
  split; reflexivity.
Defined.

Lemma list__status_failure_throws_witness :
  let st :=
    scripted_state (Ok [example_pull 1 None; example_pull 2 None; example_pull 3 None])
      {| script_details := [];
         script_statuses := [Ok {| status_state := "success" |}] |}
      (object [("user", JsString "node-gh"); ("repo", JsString "gh");
               ("state", JsString "open"); ("sort", JsString "created")]) in
  (list_ (JsString "node-gh") (JsString "gh") st).1
  = Throw "TypeError: Cannot read property 'state' of undefined"
  /\ length (requests (events (list_ (JsString "node-gh") (JsString "gh") st).2)) = 3%nat.
Proof.
  intros st.
  rewrite (list__status_failure_throws (JsString "node-gh") (JsString "gh")
             [example_pull 1 None; example_pull 2 None; example_pull 3 None]
             [example_pull 1 None] [example_pull 3 None]
             [set_combinedStatus "success" (example_pull 1 None)]
             (example_pull 2 None) st _ (example_error 500) _ _
             ltac:(vm_compute; discriminate) eq_refl eq_refl eq_refl eq_refl).
  split; reflexivity.
Defined.

Lemma addComplexityParamToPulls__stops_witness :
  let st :=
    scripted_state (Ok [])
      {| script_details := [Ok (example_pull 1 None)]; script_statuses := [] |}
      example_listing_options in
  let run :=
    addComplexityParamToPulls_
      [example_pull 1 None; example_pull 2 None; example_pull 3 None] st in
  run.1 = Done (Some (example_error 500),
                [set_complexity 0 (example_pull 1 None); example_pull 2 None])
  /\ prop (options run.2) "number" = JsNumber 2
  /\ length (requests (events run.2)) = 2%nat.
Proof.
  intros st run. subst run.
  pose proof (addComplexityParamToPulls__stops
                [example_pull 1 None] [example_pull 3 None]
                [set_complexity 0 (example_pull 1 None)]
                (example_pull 2 None) st _ (example_error 500) _ eq_refl eq_refl)
    as Hstops.
  cbn [app] in Hstops. rewrite Hstops.
  repeat split; reflexivity.
Defined.


Lemma reconciler_last_match_wins_witness :
  let st :=
    mock_state (Failed (example_error 404))
      (Ok [example_pull 1 None; example_pull 2 None])
      (Failed (example_error 422)) (Ok []) example_options in
  (checkPullRequestIntegrity_ (example_error 422) (JsString "node-gh") st).1
  = Done (None, Some (example_pull 2 None)).
Proof.
  intros st.
  by rewrite (reconciler_last_match_wins (example_error 422) (JsString "node-gh") st
                [example_pull 1 None; example_pull 2 None] tt eq_refl).
Defined.

Lemma run_without_action_witness :
  let extensions :=
    mock_extensions (Failed (example_error 404)) (Ok [])
      (Failed (example_error 422)) (Ok []) in
  let st :=
    mock_state (Failed (example_error 404)) (Ok [])
      (Failed (example_error 422)) (Ok []) example_branch_options in
  (@run _ extensions st).1 = Done tt
  /\ events (@run _ extensions st).2 = []
  /\ prop (options (@run _ extensions st).2) "number" = JsString "42"
  /\ prop (options (@run _ extensions st).2) "pullBranch" = JsString "pr-42".
Proof.
  intros extensions st.
  rewrite (@run_without_action _ extensions st (JsString "42") eq_refl
             ltac:(repeat constructor) ltac:(vm_compute; discriminate)
             ltac:(vm_compute; discriminate)).
  repeat split; reflexivity.
Defined.

Lemma closeHandler_failure_warns_witness :
  let extensions :=
    mock_extensions (Failed (example_error 404)) (Ok [])
      (Failed (example_error 422)) (Ok []) in
  let st :=
    mock_state (Failed (example_error 404)) (Ok [])
      (Failed (example_error 422)) (Ok [])
      (<["number" := JsNumber 7]> example_close_options) in
  (@_closeHandler _ extensions st).1 = Done tt
  /\ last (events (@_closeHandler _ extensions st).2)
     = Some (EvWarn "Can't close pull request 7.").
Proof.
  intros extensions st.
  rewrite (@closeHandler_failure_warns _ extensions st st _ (example_error 404) None
             eq_refl eq_refl).
  split; reflexivity.
Defined.

Lemma openHandler_failure_exits_witness :
  let extensions :=
    mock_extensions (Failed (example_error 404)) (Ok [])
      (Failed (example_error 422)) (Ok []) in
  let st :=
    mock_state (Failed (example_error 404)) (Ok [])
      (Failed (example_error 422)) (Ok [])
      (<["number" := JsNumber 7]> example_close_options) in
  (@_openHandler _ extensions st).1 = Exit 1
  /\ last (events (@_openHandler _ extensions st).2)
     = Some (EvError "Can't open pull request 7.").
Proof.
  intros extensions st.
  rewrite (@openHandler_failure_exits _ extensions st st _ (example_error 404) None
             eq_refl eq_refl).
  split; reflexivity.
Defined.

Lemma submitHandler_failure_report_witness :
  let options := <["submit" := JsString "node-gh"]> example_options in
  (@_submitHandler _
     (mock_extensions (Failed (example_error 404)) (Ok [])
        (Failed (example_error 422)) (Ok []))
     (mock_state (Failed (example_error 404)) (Ok [])
        (Failed (example_error 422)) (Ok []) options)).1
  = Done tt
  /\ (@_submitHandler _ (scripted_extensions (Ok []))
        (scripted_state (Ok []) {| script_details := []; script_statuses := [] |}
           options)).1
     = Exit 1.
Proof.
  intros options. split.
  - by rewrite (@submitHandler_failure_report _
                  (mock_extensions (Failed (example_error 404)) (Ok [])
                     (Failed (example_error 422)) (Ok []))
                  (mock_state (Failed (example_error 404)) (Ok [])
                     (Failed (example_error 422)) (Ok []) options)
                  (mock_state (Failed (example_error 404)) (Ok [])
                     (Failed (example_error 422)) (Ok []) options)
                  _ (example_error 422) None eq_refl eq_refl).
  - by rewrite (@submitHandler_failure_report _ (scripted_extensions (Ok []))
                  (scripted_state (Ok [])
                     {| script_details := []; script_statuses := [] |} options)
                  (scripted_state (Ok [])
                     {| script_details := []; script_statuses := [] |} options)
                  _ (example_error 422) None eq_refl eq_refl).
Defined.

Lemma fetchHandler_mode_witness :
  let extensions :=
    mock_extensions (Ok (example_pull 7 None)) (Ok [])
      (Failed (example_error 422)) (Ok []) in
  let st :=
    mock_state (Ok (example_pull 7 None)) (Ok [])
      (Failed (example_error 422)) (Ok [])
      (object [("user", JsString "node-gh"); ("repo", JsString "gh");
               ("number", JsNumber 7); ("pullBranch", JsString "pr-7");
               ("currentBranch", JsString "master"); ("fetch", JsBool true);
               ("merge", JsBool true); ("rebase", JsBool true)]) in
  events (@_fetchHandler _ extensions st).2
  = [EvLog "Fetching pull request #7 and rebasing into branch master";
     EvApi "pullRequests.get"
       (object [("number", JsNumber 7); ("repo", JsString "gh");
                ("user", JsString "node-gh")]);
     EvGit (GitFetch "git@github.com:eduardo/gh.git" "feature" (JsString "pr-7"));
     EvGit (GitMerge (JsString "pr-7"))].
Proof.
  intros extensions st.
  by rewrite (@fetchHandler_mode _ extensions st st (example_pull 7 None) tt
                eq_refl eq_refl).
Defined.

Lemma listHandler_defaults_witness :
  let st :=
    mock_state (Failed (example_error 404)) (Ok [])
      (Failed (example_error 422)) (Ok [])
      (object [("user", JsString "node-gh"); ("repo", JsString "gh");
               ("state", JsString "open"); ("list", JsBool true)]) in
  prop (options (_listHandler st).2) "sort" = JsString "created"
  /\ prop (options (_listHandler st).2) "direction" = JsString "desc".
Proof.
  intros st.
  destruct (listHandler_defaults st eq_refl) as (_ & Hsort & Hdirection).
  by rewrite Hsort, Hdirection.
Defined.
